(** * Study-session store: the session list and its CSV mirror

    A shallow embedding of [model.py]: the [StudySession] record, the
    process-wide [session_list], the backing file [CSV_FILE], and the four
    store operations [save_session], [load_sessions], [update_session] and
    [filter_sessions_by_date] with their two private writers; and of what
    the window of [main.py] does to that store when it displays the
    sessions and when its form is submitted.

    [model.py] delegates all parsing and printing to the interpreter: the
    [csv] module ([DictWriter], [DictReader], excel dialect), text files
    opened with [newline=''], and [int]/[str] on integers.  Those parts are
    embedded here as CPython 3.11 runs them with its default settings:
    - a text file is a sequence of characters; characters are the 256 code
      points of [ascii] (Latin-1), all of which UTF-8 can encode;
    - the reader refuses a field of more than [field_limit] characters
      ([csv.field_size_limit()], 131072);
    - [str] and [int] refuse integers of more than [int_max_str_digits]
      decimal digits ([sys.get_int_max_str_digits()], 4300);
    - an exception leaves every mutation made before it in place. *)

From Stdlib Require Import ZArith List Ascii String Lia Bool.
From Stdlib Require Import Decimal DecimalZ DecimalFacts.
From stdpp Require Import base list.

Local Open Scope char_scope.
Local Open Scope Z_scope.

(** ** Strings, exceptions, results *)

Definition str := list ascii.

Definition lit (s : string) : str := list_ascii_of_string s.

Inductive exn :=
| ValueError   (* int() on a bad literal, str()/int() over the digit cap *)
| TypeError    (* int(None) *)
| KeyError     (* row[k] for a column the header does not name *)
| csv_Error.   (* _csv.Error: field larger than field limit *)

Inductive result (A : Type) :=
| Ok (a : A)
| Raise (e : exn).
Arguments Ok {A} a.
Arguments Raise {A} e.

Notation "x <-? c ; k" :=
  (match c with Ok x => k | Raise e => Raise e end)
    (at level 20, c at level 100, k at level 200, only parsing).

Definition CR : ascii := "013".
Definition LF : ascii := "010".

(** ** [int] and [str] on integers *)

Definition int_max_str_digits : nat := 4300.

Fixpoint uint_chars (u : uint) : str :=
  match u with
  | Nil => []
  | D0 u => "0" :: uint_chars u
  | D1 u => "1" :: uint_chars u
  | D2 u => "2" :: uint_chars u
  | D3 u => "3" :: uint_chars u
  | D4 u => "4" :: uint_chars u
  | D5 u => "5" :: uint_chars u
  | D6 u => "6" :: uint_chars u
  | D7 u => "7" :: uint_chars u
  | D8 u => "8" :: uint_chars u
  | D9 u => "9" :: uint_chars u
  end.

(** The decimal text of an integer, without the digit cap: a minus sign for
    negatives, no leading zeros, ["0"] for zero. *)
Definition decimal (z : Z) : str :=
  match Z.to_int z with
  | Pos u => uint_chars u
  | Neg u => "-" :: uint_chars u
  end.

Definition decimal_digits (z : Z) : nat :=
  match Z.to_int z with
  | Pos u | Neg u => nb_digits u
  end.

(** [str(z)]: raises ValueError past the digit cap. *)
Definition py_str_int (z : Z) : result str :=
  if (int_max_str_digits <? decimal_digits z)%nat then Raise ValueError
  else Ok (decimal z).

(** The characters [int] strips from both ends of its argument. *)
Definition int_space (c : ascii) : bool :=
  let n := nat_of_ascii c in
  ((9 <=? n) && (n <=? 13) || (n =? 32) || (n =? 133) || (n =? 160))%nat.

Definition digit_of (c : ascii) : option (uint -> uint) :=
  match c with
  | "0" => Some D0 | "1" => Some D1 | "2" => Some D2 | "3" => Some D3
  | "4" => Some D4 | "5" => Some D5 | "6" => Some D6 | "7" => Some D7
  | "8" => Some D8 | "9" => Some D9
  | _ => None
  end.

Definition is_digit (c : ascii) : bool :=
  match digit_of c with Some _ => true | None => false end.

Fixpoint lstrip (s : str) : str :=
  match s with
  | c :: s' => if int_space c then lstrip s' else s
  | [] => []
  end.

(** The digits of a literal: a digit, then digits each optionally preceded
    by one underscore.  Returns the digits read and the text after them;
    [None] when the text does not start with a digit or an underscore is
    not followed by a digit. *)
Fixpoint int_digits (s : str) : option (uint * str) :=
  match s with
  | [] => None
  | c :: s' =>
      match digit_of c with
      | None => None
      | Some d =>
          match s' with
          | [] => Some (d Nil, [])
          | c' :: s'' =>
              if is_digit c' then
                match int_digits s' with
                | Some (u, r) => Some (d u, r)
                | None => None
                end
              else if Ascii.eqb c' "_" then
                match int_digits s'' with
                | Some (u, r) => Some (d u, r)
                | None => None
                end
              else Some (d Nil, s')
          end
      end
  end.

Definition int_sign (s : str) : bool * str :=
  match s with
  | "-" :: t => (true, t)
  | "+" :: t => (false, t)
  | _ => (false, s)
  end.

(** [int(s)] for a string: surrounding white space, an optional sign, the
    digits; ValueError for anything else and past the digit cap. *)
Definition py_int (s : str) : result Z :=
  let '(neg, s2) := int_sign (lstrip s) in
  match int_digits s2 with
  | None => Raise ValueError
  | Some (u, r) =>
      if forallb int_space r then
        if (int_max_str_digits <? nb_digits u)%nat then Raise ValueError
        else Ok (if neg then - Z.of_uint u else Z.of_uint u)
      else Raise ValueError
  end.

(** ** The [csv] writer (excel dialect, QUOTE_MINIMAL) *)

Definition delimiter : ascii := ",".
Definition quotechar : ascii := "034".
Definition lineterminator : str := [CR; LF].

Fixpoint str_eqb (a b : str) : bool :=
  match a, b with
  | [], [] => true
  | x :: a', y :: b' => Ascii.eqb x y && str_eqb a' b'
  | _, _ => false
  end.

(** A value handed to [writerow]. *)
Inductive cell :=
| CNone
| CStr (s : str)
| CInt (z : Z).

(** The text the writer joins for a cell: nothing for [None], the string
    itself, [str(z)] for an integer. *)
Definition cell_text (c : cell) : result str :=
  match c with
  | CNone => Ok []
  | CStr s => Ok s
  | CInt z => py_str_int z
  end.

(** A character that forces the field into quotes: the delimiter, the quote
    character, or a character of the line terminator. *)
Definition special (c : ascii) : bool :=
  Ascii.eqb c delimiter || Ascii.eqb c quotechar
  || existsb (Ascii.eqb c) lineterminator.

(** The field's characters with every quote character doubled. *)
Fixpoint doubled (s : str) : str :=
  match s with
  | [] => []
  | c :: s' =>
      if Ascii.eqb c quotechar then quotechar :: quotechar :: doubled s'
      else c :: doubled s'
  end.

Definition join_append (s : str) : str :=
  if existsb special s then quotechar :: doubled s ++ [quotechar]
  else doubled s.

Fixpoint join_fields (fs : list str) : str :=
  match fs with
  | [] => []
  | [f] => join_append f
  | f :: fs' => join_append f ++ delimiter :: join_fields fs'
  end.

Fixpoint cell_texts (cs : list cell) : result (list str) :=
  match cs with
  | [] => Ok []
  | c :: cs' =>
      t <-? cell_text c;
      ts <-? cell_texts cs';
      Ok (t :: ts)
  end.

(** [writer.writerow]: the line it hands to [file.write], or the exception
    of a cell that has no text.  A row of one empty field is written as a
    pair of quotes. *)
Definition csv_writerow (cs : list cell) : result str :=
  ts <-? cell_texts cs;
  match ts with
  | [[]] => Ok (quotechar :: quotechar :: lineterminator)
  | _ => Ok (join_fields ts ++ lineterminator)
  end.

(** A Python dict with string keys, in insertion order. *)
Definition dict (V : Type) := list (str * V).

Fixpoint dict_get {V} (d : dict V) (k : str) : option V :=
  match d with
  | [] => None
  | (k', v) :: d' => if str_eqb k' k then Some v else dict_get d' k
  end.

Fixpoint dict_set {V} (d : dict V) (k : str) (v : V) : dict V :=
  match d with
  | [] => [(k, v)]
  | (k', v') :: d' =>
      if str_eqb k' k then (k', v) :: d' else (k', v') :: dict_set d' k v
  end.

Definition fieldnames : list str :=
  [lit "Subject"; lit "Date"; lit "Duration"; lit "Notes"].

(** [DictWriter._dict_to_list] with [extrasaction='raise'] and
    [restval='']. *)
Definition dict_to_list (names : list str) (rowdict : dict cell)
  : result (list cell) :=
  if forallb (fun kv => existsb (str_eqb (fst kv)) names) rowdict then
    Ok (map (fun k => match dict_get rowdict k with
                      | Some v => v
                      | None => CStr []
                      end) names)
  else Raise ValueError.

Definition DictWriter_writerow (names : list str) (rowdict : dict cell)
  : result str :=
  cs <-? dict_to_list names rowdict;
  csv_writerow cs.

Definition DictWriter_writeheader (names : list str) : result str :=
  DictWriter_writerow names
    (fold_left (fun d k => dict_set d k (CStr k)) names []).

(** ** Text files opened with [newline='']

    Iterating over the file yields its lines with their endings kept; a
    line ends after LF, after CR LF, or after a CR that no LF follows. *)

Fixpoint readlines (s : str) : list str :=
  match s with
  | [] => []
  | c :: s' =>
      if Ascii.eqb c LF then [c] :: readlines s'
      else if Ascii.eqb c CR then
        match s' with
        | c' :: s'' =>
            if Ascii.eqb c' LF then [c; c'] :: readlines s''
            else [c] :: readlines s'
        | [] => [[c]]
        end
      else
        match readlines s' with
        | [] => [[c]]
        | l :: ls => (c :: l) :: ls
        end
  end.

(** ** The [csv] reader (excel dialect: no escape character, doubled
    quotes, not strict) *)

Definition field_limit : Z := 131072.

Inductive ParserState :=
| START_RECORD
| START_FIELD
| IN_FIELD
| IN_QUOTED_FIELD
| QUOTE_IN_QUOTED_FIELD
| EAT_CRNL.

Definition ParserState_eqb (a b : ParserState) : bool :=
  match a, b with
  | START_RECORD, START_RECORD | START_FIELD, START_FIELD
  | IN_FIELD, IN_FIELD | IN_QUOTED_FIELD, IN_QUOTED_FIELD
  | QUOTE_IN_QUOTED_FIELD, QUOTE_IN_QUOTED_FIELD | EAT_CRNL, EAT_CRNL => true
  | _, _ => false
  end.

(** What the parser is fed: a character of the line, or the end-of-line
    mark the reader adds after each line. *)
Inductive input :=
| Chr (c : ascii)
| EOL.

(** The reader object: the fields of the record read so far, and the
    buffer of the field being read, newest character first, with its
    length. *)
Record ReaderObj := mkReader {
  state : ParserState;
  fields : list str;
  field : str;
  field_len : Z
}.

Definition parse_reset : ReaderObj :=
  {| state := START_RECORD; fields := []; field := []; field_len := 0 |}.

Definition set_state (p : ReaderObj) (s : ParserState) : ReaderObj :=
  {| state := s; fields := fields p; field := field p;
     field_len := field_len p |}.

Definition parse_save_field (p : ReaderObj) : ReaderObj :=
  {| state := state p; fields := fields p ++ [reverse (field p)]; field := [];
     field_len := 0 |}.

Definition parse_add_char (p : ReaderObj) (c : ascii) : result ReaderObj :=
  if field_limit <=? field_len p then Raise csv_Error
  else Ok {| state := state p; fields := fields p; field := c :: field p;
             field_len := field_len p + 1 |}.

Definition is_newline (c : ascii) : bool := Ascii.eqb c LF || Ascii.eqb c CR.

Definition start_field (p : ReaderObj) (i : input) : result ReaderObj :=
  match i with
  | EOL => Ok (set_state (parse_save_field p) START_RECORD)
  | Chr c =>
      if is_newline c then Ok (set_state (parse_save_field p) EAT_CRNL)
      else if Ascii.eqb c quotechar then Ok (set_state p IN_QUOTED_FIELD)
      else if Ascii.eqb c delimiter then Ok (parse_save_field p)
      else p' <-? parse_add_char p c; Ok (set_state p' IN_FIELD)
  end.

Definition parse_process_char (p : ReaderObj) (i : input)
  : result ReaderObj :=
  match state p with
  | START_RECORD =>
      match i with
      | EOL => Ok p
      | Chr c =>
          if is_newline c then Ok (set_state p EAT_CRNL)
          else start_field (set_state p START_FIELD) i
      end
  | START_FIELD => start_field p i
  | IN_FIELD =>
      match i with
      | EOL => Ok (set_state (parse_save_field p) START_RECORD)
      | Chr c =>
          if is_newline c then Ok (set_state (parse_save_field p) EAT_CRNL)
          else if Ascii.eqb c delimiter then
            Ok (set_state (parse_save_field p) START_FIELD)
          else parse_add_char p c
      end
  | IN_QUOTED_FIELD =>
      match i with
      | EOL => Ok p
      | Chr c =>
          if Ascii.eqb c quotechar then Ok (set_state p QUOTE_IN_QUOTED_FIELD)
          else parse_add_char p c
      end
  | QUOTE_IN_QUOTED_FIELD =>
      match i with
      | EOL => Ok (set_state (parse_save_field p) START_RECORD)
      | Chr c =>
          if Ascii.eqb c quotechar then
            p' <-? parse_add_char p c; Ok (set_state p' IN_QUOTED_FIELD)
          else if Ascii.eqb c delimiter then
            Ok (set_state (parse_save_field p) START_FIELD)
          else if is_newline c then
            Ok (set_state (parse_save_field p) EAT_CRNL)
          else p' <-? parse_add_char p c; Ok (set_state p' IN_FIELD)
      end
  | EAT_CRNL =>
      match i with
      | EOL => Ok (set_state p START_RECORD)
      | Chr c => if is_newline c then Ok p else Raise csv_Error
      end
  end.

(** The characters of one line, then the end-of-line mark. *)
Fixpoint parse_chars (p : ReaderObj) (line : str) : result ReaderObj :=
  match line with
  | [] => Ok p
  | c :: line' => p' <-? parse_process_char p (Chr c); parse_chars p' line'
  end.

Definition parse_line (p : ReaderObj) (line : str) : result ReaderObj :=
  p' <-? parse_chars p line;
  parse_process_char p' EOL.

(** What iterating over a reader gives: the rows it yields, in order, and
    the exception that ends the iteration, if one does. *)
Definition rows (A : Type) : Type := list A * option exn.

(** [Reader_iternext], called until the lines run out: a record is complete
    when a line leaves the parser in START_RECORD; lines that end inside a
    quoted field continue the record; at the end of the input a record in
    progress is yielded as it stands. *)
Fixpoint Reader_iter (p : ReaderObj) (lines : list str) : rows (list str) :=
  match lines with
  | [] =>
      if negb (field_len p =? 0) || ParserState_eqb (state p) IN_QUOTED_FIELD
      then ([fields (parse_save_field p)], None)
      else ([], None)
  | line :: lines' =>
      match parse_line p line with
      | Raise e => ([], Some e)
      | Ok p' =>
          if ParserState_eqb (state p') START_RECORD then
            let '(rs, e) := Reader_iter parse_reset lines' in
            (fields p' :: rs, e)
          else Reader_iter p' lines'
      end
  end.

Definition csv_reader (lines : list str) : rows (list str) :=
  Reader_iter parse_reset lines.

(** ** [DictReader]

    The first row names the columns.  Every later row that is not empty
    becomes a dict: names and values are paired up in order, and a name
    the row has no value for is given [None].  Values beyond the names go
    under the key [None], which no string key reads and which is left out
    here. *)

Fixpoint zip_row (names row : list str) (d : dict (option str))
  : dict (option str) :=
  match names, row with
  | k :: names', v :: row' => zip_row names' row' (dict_set d k (Some v))
  | _, [] => fold_left (fun d k => dict_set d k None) names d
  | [], _ => d
  end.

Definition is_empty_row (r : list str) : bool :=
  match r with [] => true | _ => false end.

Definition DictReader (rs : rows (list str)) : rows (dict (option str)) :=
  match fst rs with
  | [] => ([], snd rs)
  | names :: data =>
      (map (fun r => zip_row names r [])
           (List.filter (fun r => negb (is_empty_row r)) data),
       snd rs)
  end.

(** ** [model.py]: the session record and the store state *)

(** A study session.  A text attribute holds a [str]; it holds [None]
    only when [load_sessions] built the session from a row shorter than
    the header. *)
Record StudySession := mkSession {
  subject : option str;
  date : option str;
  duration : Z;
  notes : option str
}.

(** The module's state: the global [session_list], and the content of the
    file named [CSV_FILE], [None] while [os.path.exists(CSV_FILE)] is
    false. *)
Record Store := mkStore {
  session_list : list StudySession;
  file : option str
}.

(** Store operations run in a state and exception monad; the state
    survives an exception. *)
Definition M (A : Type) : Type := Store -> result A * Store.

Definition ret {A} (a : A) : M A := fun st => (Ok a, st).

Definition raise {A} (e : exn) : M A := fun st => (Raise e, st).

Definition bind {A B} (m : M A) (k : A -> M B) : M B :=
  fun st =>
    match m st with
    | (Ok a, st') => k a st'
    | (Raise e, st') => (Raise e, st')
    end.

Definition lift {A} (r : result A) : M A := fun st => (r, st).

Notation "'let*' x ':=' c 'in' k" := (bind c (fun x => k))
  (at level 10, x name, c at level 100, k at level 200, only parsing).

Definition get_list : M (list StudySession) :=
  fun st => (Ok (session_list st), st).

Definition set_list (l : list StudySession) : M unit :=
  fun st => (Ok tt, {| session_list := l; file := file st |}).

Definition os_path_exists : M bool :=
  fun st => (Ok (match file st with Some _ => true | None => false end), st).

Definition file_content (st : Store) : str :=
  match file st with Some c => c | None => [] end.

(** [open(CSV_FILE, "a")] creates the file when it does not exist;
    [open(CSV_FILE, "w")] creates or empties it. *)
Definition open_a : M unit :=
  fun st => (Ok tt, {| session_list := session_list st;
                       file := Some (file_content st) |}).

Definition open_w : M unit :=
  fun st => (Ok tt, {| session_list := session_list st; file := Some [] |}).

Definition file_write (text : str) : M unit :=
  fun st => (Ok tt, {| session_list := session_list st;
                       file := Some (file_content st ++ text) |}).

Definition of_text (v : option str) : cell :=
  match v with Some s => CStr s | None => CNone end.

(** The dict literal both writers pass to [writer.writerow]. *)
Definition rowdict (session : StudySession) : dict cell :=
  [(lit "Subject", of_text (subject session));
   (lit "Date", of_text (date session));
   (lit "Duration", CInt (duration session));
   (lit "Notes", of_text (notes session))].

Definition writeheader : M unit :=
  let* line := lift (DictWriter_writeheader fieldnames) in
  file_write line.

Definition writerow (session : StudySession) : M unit :=
  let* line := lift (DictWriter_writerow fieldnames (rowdict session)) in
  file_write line.

Definition _append_to_csv (session : StudySession) : M unit :=
  let* file_exists := os_path_exists in
  let* _ := open_a in
  let* _ := if negb file_exists then writeheader else ret tt in
  writerow session.

Fixpoint writerows (l : list StudySession) : M unit :=
  match l with
  | [] => ret tt
  | session :: l' => let* _ := writerow session in writerows l'
  end.

Definition _write_all_to_csv : M unit :=
  let* _ := open_w in
  let* _ := writeheader in
  let* l := get_list in
  writerows l.

Definition save_session (session : StudySession) : M unit :=
  let* l := get_list in
  let* _ := set_list (l ++ [session]) in
  _append_to_csv session.

(** [row[k]] *)
Definition getitem (row : dict (option str)) (k : str)
  : result (option str) :=
  match dict_get row k with
  | Some v => Ok v
  | None => Raise KeyError
  end.

(** [int(v)] for a value of a row. *)
Definition int_of (v : option str) : result Z :=
  match v with
  | Some s => py_int s
  | None => Raise TypeError
  end.

(** [StudySession(row["Subject"], row["Date"], int(row["Duration"]),
    row["Notes"])], arguments evaluated left to right. *)
Definition session_of_row (row : dict (option str)) : result StudySession :=
  s <-? getitem row (lit "Subject");
  d <-? getitem row (lit "Date");
  v <-? getitem row (lit "Duration");
  n <-? int_of v;
  t <-? getitem row (lit "Notes");
  Ok {| subject := s; date := d; duration := n; notes := t |}.

(** The [for row in reader] loop: each row is converted and appended as
    it is read; the reader's own exception is raised when the rows before
    it have been consumed. *)
Fixpoint for_rows (rs : list (dict (option str))) (e : option exn) : M unit :=
  match rs with
  | [] => match e with Some x => raise x | None => ret tt end
  | row :: rs' =>
      let* session := lift (session_of_row row) in
      let* l := get_list in
      let* _ := set_list (l ++ [session]) in
      for_rows rs' e
  end.

Definition load_sessions : M (list StudySession) :=
  let* _ := set_list [] in
  let* file_exists := os_path_exists in
  let* _ :=
    if file_exists then
      fun st =>
        let reader := DictReader (csv_reader (readlines (file_content st))) in
        for_rows (fst reader) (snd reader) st
    else ret tt in
  get_list.

Definition update_session (index : Z) (updated_session : StudySession)
  : M unit :=
  let* l := get_list in
  if (0 <=? index) && (index <? Z.of_nat (length l)) then
    let* _ := set_list (<[Z.to_nat index := updated_session]> l) in
    _write_all_to_csv
  else ret tt.

(** [s.date == date_str] *)
Definition date_is (date_str : str) (s : StudySession) : bool :=
  match date s with
  | Some d => str_eqb d date_str
  | None => false
  end.

Definition filter_sessions_by_date (date_str : str)
  : M (list StudySession) :=
  let* l := get_list in
  ret (List.filter (date_is date_str) l).

(** ** Definitions used by the statements below *)

(** The rows the reader yields for a text read from parser state [p]. *)
Definition feed (p : ReaderObj) (s : str) : rows (list str) :=
  Reader_iter p (readlines s).

Definition add_char (p : ReaderObj) (c : ascii) : ReaderObj :=
  {| state := state p; fields := fields p; field := c :: field p;
     field_len := field_len p + 1 |}.

Definition add_chars (p : ReaderObj) (f : str) : ReaderObj :=
  {| state := state p; fields := fields p; field := reverse f ++ field p;
     field_len := field_len p + Z.of_nat (length f) |}.

(** The line the writer produces for a row of texts. *)
Definition row_line (fs : list str) : str := join_fields fs ++ lineterminator.

Definition within_limit (f : str) : Prop := Z.of_nat (length f) <= field_limit.

(** A parser about to read a field. *)
Definition at_field (p : ReaderObj) : Prop :=
  (state p = START_RECORD \/ state p = START_FIELD)
  /\ field p = [] /\ field_len p = 0.

(** A parser that has read the characters [f] of a field, whichever way
    the field was written. *)
Definition has_field (p : ReaderObj) (f : str) : Prop :=
  reverse (field p) = f
  /\ (state p = IN_FIELD \/ state p = QUOTE_IN_QUOTED_FIELD
      \/ ((state p = START_FIELD \/ state p = START_RECORD) /\ f = [])).

(** The state once a field has been saved: ready for the next one. *)
Definition next_field (fs : list str) : ReaderObj :=
  {| state := START_FIELD; fields := fs; field := []; field_len := 0 |}.

(** The text the writer joins for a text attribute. *)
Definition text (v : option str) : str :=
  match v with Some s => s | None => [] end.

Definition session_texts (s : StudySession) : list str :=
  [text (subject s); text (date s); decimal (duration s); text (notes s)].

(** The record of a session, and the header, as lines of the file. *)
Definition record_line (s : StudySession) : str := row_line (session_texts s).

Definition header_line : str := row_line fieldnames.

(** The file [_write_all_to_csv] writes for a list of sessions. *)
Definition render (l : list StudySession) : str :=
  header_line ++ concat (map record_line l).

(** A text attribute that is a string the reader accepts back. *)
Definition text_ok (v : option str) : Prop :=
  match v with Some s => within_limit s | None => False end.

Definition texts_ok (s : StudySession) : Prop :=
  text_ok (subject s) /\ text_ok (date s) /\ text_ok (notes s).

Definition duration_ok (s : StudySession) : Prop :=
  (decimal_digits (duration s) <= int_max_str_digits)%nat.

(** A session the store can write and read back. *)
Definition storable (s : StudySession) : Prop := texts_ok s /\ duration_ok s.

(** The caller's loop [for s in ss: save_session(s)]. *)
Fixpoint save_all (ss : list StudySession) : M unit :=
  match ss with
  | [] => ret tt
  | s :: ss' => let* _ := save_session s in save_all ss'
  end.

(** The store before anything was saved or loaded. *)
Definition fresh : Store := {| session_list := []; file := None |}.

(** Parsing the file yields exactly the sequence in memory. *)
Definition in_sync (st : Store) : Prop :=
  fst (load_sessions st) = Ok (session_list st).

(** The file is the store's own rendering of the sequence in memory, or
    there is neither a file nor a session. *)
Definition canonical (st : Store) : Prop :=
  Forall storable (session_list st)
  /\ match file st with
     | Some c => c = render (session_list st)
     | None => session_list st = []
     end.

(** [r] is the subsequence of [l] holding exactly the sessions dated [d],
    in the order they have in [l]. *)
Inductive date_subsequence (d : str)
  : list StudySession -> list StudySession -> Prop :=
| ds_nil : date_subsequence d [] []
| ds_keep s l r :
    date s = Some d -> date_subsequence d l r ->
    date_subsequence d (s :: l) (s :: r)
| ds_skip s l r :
    date s <> Some d -> date_subsequence d l r ->
    date_subsequence d (s :: l) r.

(** The sessions of the specification's scenario. *)
Definition math : StudySession :=
  {| subject := Some (lit "Math"); date := Some (lit "2024-01-10");
     duration := 30; notes := Some [] |}.

Definition art : StudySession :=
  {| subject := Some (lit "Art"); date := Some (lit "2024-01-10");
     duration := 45; notes := Some (lit "sketch") |}.

Definition math_revised : StudySession :=
  {| subject := Some (lit "Math"); date := Some (lit "2024-01-11");
     duration := 60; notes := Some (lit "revised") |}.

(** A session whose notes are one character longer than the reader's
    field limit. *)
Definition long_session : StudySession :=
  {| subject := Some (lit "Math"); date := Some (lit "2024-01-10");
     duration := 30; notes := Some (replicate (Z.to_nat 131073) "a") |}.

(** A store whose file exists and is empty. *)
Definition empty_file : Store := {| session_list := []; file := Some [] |}.


(** ** Definitions used by the further properties *)




(** A session whose duration is written with 4301 digits, one more than
    [str] accepts. *)
Definition huge_session : StudySession :=
  {| subject := Some (lit "Physics"); date := Some (lit "2024-01-12");
     duration := Z.of_uint (Nat.iter 4301 D1 Nil); notes := Some [] |}.


(** A line that holds nothing but its terminator, [n] times over. *)
Fixpoint blank_lines (n : nat) : str :=
  match n with
  | O => []
  | S n' => lineterminator ++ blank_lines n'
  end.

(** The records of the sessions, each preceded by the given number of
    blank lines. *)
Fixpoint spaced_records (l : list (nat * StudySession)) : str :=
  match l with
  | [] => []
  | (n, s) :: l' => blank_lines n ++ record_line s ++ spaced_records l'
  end.

(** ** [main.py]: what [StudyApp] does to the store

    The window's methods read and set widgets, call the store, and keep the
    attribute [selected_row].  The widgets are Qt objects, built by a
    module that is not part of the sources; they are left out.  What is
    embedded is what the methods do to the store and to [selected_row]:
    the values a method reads from the form are its arguments here, and the
    index a click on the table stores in [selected_row] is part of the
    state. *)

(** [a < b] on strings: lexicographic on code points. *)
Fixpoint str_ltb (a b : str) : bool :=
  match a, b with
  | _, [] => false
  | [], _ :: _ => true
  | x :: a', y :: b' =>
      if (nat_of_ascii x <? nat_of_ascii y)%nat then true
      else if (nat_of_ascii y <? nat_of_ascii x)%nat then false
      else str_ltb a' b'
  end.

(** [a < b] on the sort keys [s.date]: TypeError unless both are
    strings. *)
Definition key_lt (a b : option str) : result bool :=
  match a, b with
  | Some x, Some y => Ok (str_ltb x y)
  | _, _ => Raise TypeError
  end.

(** [sessions.sort(key=lambda s: s.date)].  [list.sort] is stable and
    compares keys with [<] only, so its result is the one a stable
    insertion gives: each session goes in front of the first session that
    is not dated before it.  A list of two or more sessions has every key
    compared at least once, so the sort raises exactly when such a list
    holds a [None] date. *)
Fixpoint insert_by_date (x : StudySession) (l : list StudySession)
  : result (list StudySession) :=
  match l with
  | [] => Ok [x]
  | y :: l' =>
      b <-? key_lt (date y) (date x);
      if b then (r <-? insert_by_date x l'; Ok (y :: r))
      else Ok (x :: y :: l')
  end.

Fixpoint sort_by_date (l : list StudySession) : result (list StudySession) :=
  match l with
  | [] => Ok []
  | x :: l' => r <-? sort_by_date l'; insert_by_date x r
  end.

(** The [str(session.duration)] of each row of the table, in order. *)
Fixpoint duration_texts (l : list StudySession) : result (list str) :=
  match l with
  | [] => Ok []
  | s :: l' =>
      t <-? py_str_int (duration s);
      ts <-? duration_texts l';
      Ok (t :: ts)
  end.

(** [_populate_table(table, sessions)], called with the list
    [load_sessions] returned, which is [session_list] itself: the sort
    reorders the store's list.  When the sort raises, the list is left in
    an order that depends on how far the sort got; [leftover] stands for
    that order. *)
Definition _populate_table (leftover : list StudySession -> list StudySession)
  : M unit :=
  fun st =>
    match sort_by_date (session_list st) with
    | Raise e =>
        (Raise e, {| session_list := leftover (session_list st);
                     file := file st |})
    | Ok l =>
        let st' := {| session_list := l; file := file st |} in
        match duration_texts l with
        | Raise e => (Raise e, st')
        | Ok _ => (Ok tt, st')
        end
    end.

Definition show_all_sessions (leftover : list StudySession -> list StudySession)
  : M unit :=
  let* _ := load_sessions in
  _populate_table leftover.

(** The state of the window next to the store. *)
Record StudyApp := mkApp {
  store : Store;
  selected_row : option Z
}.

(** [add_or_update_session], with the subject, date, duration and notes it
    reads from the form.  [clear_form] resets [selected_row]. *)
Definition add_or_update_session
    (leftover : list StudySession -> list StudySession)
    (subject_text date_text : str) (duration_value : Z) (notes_text : str)
    (app : StudyApp) : result unit * StudyApp :=
  let has_error :=
    match subject_text with [] => true | _ => false end
    || (duration_value =? 0) in
  if has_error then (Ok tt, app)
  else
    let session := {| subject := Some subject_text; date := Some date_text;
                      duration := duration_value;
                      notes := Some notes_text |} in
    let '(r, st1) :=
      match selected_row app with
      | Some row => update_session row session (store app)
      | None => save_session session (store app)
      end in
    match r with
    | Raise e => (Raise e, {| store := st1; selected_row := selected_row app |})
    | Ok _ =>
        let '(r', st2) := show_all_sessions leftover st1 in
        (r', {| store := st2; selected_row := None |})
    end.

(** Adjacent sessions are in date order: the second is not dated before
    the first. *)
Inductive date_sorted : list StudySession -> Prop :=
| date_sorted_nil : date_sorted []
| date_sorted_one s : date_sorted [s]
| date_sorted_cons a b l :
    key_lt (date b) (date a) = Ok false -> date_sorted (b :: l) ->
    date_sorted (a :: b :: l).

(** Sessions dated out of order in the file. *)
Definition later : StudySession :=
  {| subject := Some (lit "Chem"); date := Some (lit "2024-03-01");
     duration := 20; notes := Some [] |}.

Definition earlier : StudySession :=
  {| subject := Some (lit "Bio"); date := Some (lit "2024-01-05");
     duration := 25; notes := Some (lit "cells") |}.

(** * Proofs *)

(** ** The model on concrete inputs *)

(** The scenario of the specification: two appends, a filter, a load, a
    replace and a second load. *)
Example scenario :
  let st1 := snd (save_all [math; art] fresh) in
  let st2 := snd (update_session 0 math_revised st1) in
  file st1 = Some (lit "Subject,Date,Duration,Notes" ++ [CR; LF]
                   ++ lit "Math,2024-01-10,30," ++ [CR; LF]
                   ++ lit "Art,2024-01-10,45,sketch" ++ [CR; LF])
  /\ fst (filter_sessions_by_date (lit "2024-01-10") st1) = Ok [math; art]
  /\ fst (load_sessions st1) = Ok [math; art]
  /\ fst (load_sessions st2) = Ok [math_revised; art].
Proof. repeat split; vm_compute; reflexivity. Qed.

(** Quoting: a field with a comma, a quote or a line end is written in
    quotes with its quotes doubled, and is read back across the lines it
    spans. *)
Example quoted_fields :
  let s := {| subject := Some (lit "a,b"); date := Some [quotechar];
              duration := -5; notes := Some (lit "x" ++ [CR] ++ lit "y" ++ [LF]) |} in
  DictWriter_writerow fieldnames (rowdict s)
  = Ok ([quotechar] ++ lit "a,b" ++ [quotechar; ","%char]
        ++ [quotechar; quotechar; quotechar; quotechar; ","%char]
        ++ lit "-5," ++ [quotechar] ++ lit "x" ++ [CR] ++ lit "y" ++ [LF]
        ++ [quotechar; CR; LF])
  /\ readlines (record_line s)
     = [[quotechar] ++ lit "a,b" ++ [quotechar; ","%char]
        ++ [quotechar; quotechar; quotechar; quotechar; ","%char]
        ++ lit "-5," ++ [quotechar] ++ lit "x" ++ [CR];
        lit "y" ++ [LF]; [quotechar; CR; LF]]
  /\ csv_reader (readlines (record_line s)) = ([session_texts s], None).
Proof. repeat split; vm_compute; reflexivity. Qed.

(** A row shorter than the header gets [None] for the missing columns, and
    [int(None)] raises TypeError; blank lines are skipped; a file without a
    header gives its first record away as the header. *)
Example reader_corner_cases :
  fst (load_sessions
         {| session_list := [];
            file := Some (header_line ++ lit "a,b,1" ++ lineterminator) |})
  = Ok [{| subject := Some (lit "a"); date := Some (lit "b"); duration := 1;
           notes := None |}]
  /\ fst (load_sessions
            {| session_list := [];
               file := Some (header_line ++ lit "a,b" ++ lineterminator) |})
     = Raise TypeError
  /\ fst (load_sessions
            {| session_list := [];
               file := Some (header_line ++ lineterminator
                             ++ record_line math ++ [LF]) |})
     = Ok [math]
  /\ fst (load_sessions
            {| session_list := [];
               file := Some (record_line math ++ record_line art) |})
     = Raise KeyError.
Proof. repeat split; vm_compute; reflexivity. Qed.

(** [int] strips white space, takes a sign and single underscores between
    digits, and nothing else. *)
Example int_literals :
  map (fun s => py_int (lit s))
    [" 42 "; "-007"; "+1_000"; "1__0"; "_1"; "1_"; "- 7"; "4 2"; ""; "1.0"]%string
  = [Ok 42; Ok (-7); Ok 1000; Raise ValueError; Raise ValueError;
     Raise ValueError; Raise ValueError; Raise ValueError; Raise ValueError;
     Raise ValueError].
Proof. vm_compute. reflexivity. Qed.
(** * Proofs *)

(** ** Integers survive [str] then [int] *)

Lemma int_digits_step (c c' : ascii) (s : str) (d : uint -> uint) :
  digit_of c = Some d -> is_digit c' = true ->
  int_digits (c :: c' :: s) =
  match int_digits (c' :: s) with
  | Some (u, r) => Some (d u, r)
  | None => None
  end.
Proof.
  intros Hc Hc'. remember (c' :: s) as t eqn:Et.
  cbn [int_digits]. rewrite Hc. subst t. now rewrite Hc'.
Qed.

Lemma uint_chars_head (u : uint) :
  u <> Nil -> exists c s d, uint_chars u = c :: s /\ digit_of c = Some d
                            /\ is_digit c = true /\ int_space c = false
                            /\ c <> "-" /\ c <> "+".
Proof.
  destruct u; intros Hu; try congruence;
    (eexists _, _, _; repeat split; first [reflexivity | discriminate]).
Qed.

Lemma int_digits_uint_chars (u : uint) :
  u <> Nil -> int_digits (uint_chars u) = Some (u, []).
Proof.
  induction u as [|u IH|u IH|u IH|u IH|u IH|u IH|u IH|u IH|u IH|u IH];
    intros Hn; [congruence | clear Hn ..];
    (destruct (uint_eq_dec u Nil) as [->|Hu]; [reflexivity|];
     destruct (uint_chars_head u Hu) as (c & s & d & E & _ & Hd & _);
     cbn [uint_chars]; rewrite E;
     erewrite int_digits_step by (first [reflexivity | exact Hd]);
     rewrite <- E, (IH Hu); reflexivity).
Qed.

Lemma length_uint_chars (u : uint) : length (uint_chars u) = nb_digits u.
Proof. induction u; cbn; congruence. Qed.

Lemma to_int_nonnil (z : Z) :
  match Z.to_int z with Pos u | Neg u => u <> Nil end.
Proof.
  destruct z; cbn; try apply DecimalPos.Unsigned.to_uint_nonnil. discriminate.
Qed.

Lemma py_int_decimal (z : Z) :
  (decimal_digits z <= int_max_str_digits)%nat -> py_int (decimal z) = Ok z.
Proof.
  intros Hz. pose proof (to_int_nonnil z) as Hn. pose proof (of_to z) as Hv.
  unfold decimal, decimal_digits in *.
  destruct (Z.to_int z) as [u|u]; cbn [Z.of_int] in Hv.
  - destruct (uint_chars_head u Hn) as (c & s & d & E & _ & _ & Hs & Hm & Hp).
    unfold py_int. rewrite E. cbn [lstrip]. rewrite Hs.
    assert (Hc : int_sign (c :: s) = (false, c :: s)).
    { destruct c as [[] [] [] [] [] [] [] []]; try reflexivity; congruence. }
    rewrite Hc. cbv beta iota.
    rewrite <- E, (int_digits_uint_chars u Hn). cbn [forallb].
    apply Nat.ltb_ge in Hz. rewrite Hz. now rewrite Hv.
  - unfold py_int.
    change (lstrip ("-" :: uint_chars u)) with ("-" :: uint_chars u).
    change (int_sign ("-" :: uint_chars u)) with (true, uint_chars u).
    cbv beta iota. rewrite (int_digits_uint_chars u Hn). cbn [forallb].
    apply Nat.ltb_ge in Hz. rewrite Hz. now rewrite Hv.
Qed.


Lemma py_str_int_ok (z : Z) :
  (decimal_digits z <= int_max_str_digits)%nat -> py_str_int z = Ok (decimal z).
Proof. intros H. unfold py_str_int. apply Nat.ltb_ge in H. now rewrite H. Qed.

Lemma py_str_int_inv (z : Z) (t : str) :
  py_str_int z = Ok t ->
  t = decimal z /\ (decimal_digits z <= int_max_str_digits)%nat.
Proof.
  unfold py_str_int.
  destruct (int_max_str_digits <? decimal_digits z)%nat eqn:E; [discriminate|].
  apply Nat.ltb_ge in E. intros [= <-]. auto.
Qed.

Lemma length_decimal (z : Z) :
  (length (decimal z) <= S (decimal_digits z))%nat.
Proof.
  unfold decimal, decimal_digits.
  destruct (Z.to_int z); cbn [length]; rewrite length_uint_chars; lia.
Qed.

(** ** The reader, one character at a time *)

Lemma readlines_nonempty (s : str) : s <> [] -> readlines s <> [].
Proof.
  destruct s as [|c s]; [congruence|intros _]. cbn [readlines].
  destruct (Ascii.eqb c LF); [discriminate|].
  destruct (Ascii.eqb c CR).
  - destruct s as [|c' s]; [discriminate|]. now destruct (Ascii.eqb c' LF).
  - now destruct (readlines s).
Qed.

Lemma is_newline_false (c : ascii) :
  is_newline c = false -> Ascii.eqb c LF = false /\ Ascii.eqb c CR = false.
Proof. unfold is_newline. now intros [? ?]%orb_false_iff. Qed.

Lemma special_false (c : ascii) :
  special c = false ->
  Ascii.eqb c delimiter = false /\ Ascii.eqb c quotechar = false
  /\ is_newline c = false.
Proof.
  unfold special, is_newline. cbn [existsb lineterminator].
  intros [[? ?]%orb_false_iff [? [? _]%orb_false_iff]%orb_false_iff]%orb_false_iff.
  repeat split; auto. apply orb_false_iff; auto.
Qed.

(** A character that ends no line is handed to the parser and the rest of
    the text follows on the same line. *)
Lemma feed_plain (p : ReaderObj) (c : ascii) (s : str) :
  is_newline c = false -> s <> [] ->
  feed p (c :: s) =
  match parse_process_char p (Chr c) with
  | Ok p1 => feed p1 s
  | Raise e => ([], Some e)
  end.
Proof.
  intros [Hl Hr]%is_newline_false Hs%readlines_nonempty. unfold feed.
  cbn [readlines]. rewrite Hl, Hr.
  destruct (readlines s) as [|l ls]; [congruence|].
  cbn [Reader_iter]. unfold parse_line. cbn [parse_chars].
  now destruct (parse_process_char p (Chr c)).
Qed.

Lemma parse_add_char_ok (p : ReaderObj) (c : ascii) :
  field_len p < field_limit -> parse_add_char p c = Ok (add_char p c).
Proof.
  intros H. unfold parse_add_char. now apply Z.leb_gt in H as ->.
Qed.

Lemma add_chars_cons (p : ReaderObj) (c : ascii) (f : str) :
  add_chars (add_char p c) f = add_chars p (c :: f).
Proof.
  unfold add_chars, add_char. cbn [state fields field field_len length].
  f_equal; [now rewrite reverse_cons, <- app_assoc | lia].
Qed.

Lemma add_chars_nil (p : ReaderObj) : add_chars p [] = p.
Proof.
  destruct p. unfold add_chars. cbn. f_equal. lia.
Qed.

(** Inside a quoted field every character but the quote joins the field,
    line ends included: the end-of-line mark changes nothing there. *)
Lemma feed_quoted (p : ReaderObj) (c : ascii) (s : str) :
  state p = IN_QUOTED_FIELD -> Ascii.eqb c quotechar = false -> s <> [] ->
  field_len p < field_limit ->
  feed p (c :: s) = feed (add_char p c) s.
Proof.
  intros Hp Hq Hs Hlen.
  assert (Hc : parse_process_char p (Chr c) = Ok (add_char p c)).
  { unfold parse_process_char. now rewrite Hp, Hq, parse_add_char_ok. }
  assert (He : forall p', state p' = IN_QUOTED_FIELD ->
                          parse_process_char p' EOL = Ok p').
  { intros p' Hp'. unfold parse_process_char. now rewrite Hp'. }
  assert (Hst : state (add_char p c) = IN_QUOTED_FIELD) by exact Hp.
  destruct (is_newline c) eqn:Hn.
  2:{ now rewrite feed_plain, Hc. }
  unfold feed. cbn [readlines].
  destruct (Ascii.eqb c LF) eqn:Hl.
  { cbn [Reader_iter]. unfold parse_line. cbn [parse_chars].
    rewrite Hc, (He _ Hst), Hst. reflexivity. }
  assert (Hr : Ascii.eqb c CR = true).
  { unfold is_newline in Hn. now rewrite Hl in Hn. }
  rewrite Hr. destruct s as [|c' s]; [congruence|].
  destruct (Ascii.eqb c' LF) eqn:Hl'.
  - apply Ascii.eqb_eq in Hl' as ->.
    cbn [Reader_iter readlines]. rewrite Ascii.eqb_refl.
    cbn [Reader_iter]. unfold parse_line. cbn [parse_chars]. rewrite Hc.
    destruct (parse_process_char (add_char p c) (Chr LF)) as [p2|e] eqn:E2;
      [|reflexivity].
    assert (Hp2 : state p2 = IN_QUOTED_FIELD).
    { unfold parse_process_char in E2. rewrite Hst in E2.
      change (Ascii.eqb LF quotechar) with false in E2.
      unfold parse_add_char in E2.
      destruct (field_limit <=? field_len (add_char p c)); [discriminate|].
      injection E2 as <-. exact Hp. }
    rewrite (He _ Hp2), Hp2. reflexivity.
  - cbn [Reader_iter]. unfold parse_line. cbn [parse_chars].
    rewrite Hc, (He _ Hst), Hst. reflexivity.
Qed.

(** ** Fields and rows written by the writer are read back *)

Lemma length_doubled_ge (f : str) : (length f <= length (doubled f))%nat.
Proof.
  induction f as [|c f IH]; [reflexivity|]. cbn [doubled].
  destruct (Ascii.eqb c quotechar); cbn [length]; lia.
Qed.

Lemma doubled_plain (f : str) : existsb special f = false -> doubled f = f.
Proof.
  induction f as [|c f IH]; [reflexivity|]. cbn [existsb doubled].
  intros [(_ & Hq & _)%special_false Hf]%orb_false_iff.
  now rewrite Hq, IH.
Qed.

(** The body of a quoted field, up to its closing quote. *)
Lemma feed_doubled (f : str) : forall (p : ReaderObj) (rest : str),
  state p = IN_QUOTED_FIELD ->
  field_len p + Z.of_nat (length f) <= field_limit ->
  feed p (doubled f ++ quotechar :: rest) = feed (add_chars p f) (quotechar :: rest).
Proof.
  induction f as [|c f IH]; intros p rest Hp Hlen.
  - now rewrite add_chars_nil.
  - cbn [length] in Hlen. cbn [doubled].
    assert (Hlt : field_len p < field_limit) by lia.
    assert (Hne : forall a, doubled f ++ quotechar :: a <> [])
      by (intros a; destruct (doubled f); discriminate).
    rewrite <- add_chars_cons.
    destruct (Ascii.eqb c quotechar) eqn:Hq.
    + apply Ascii.eqb_eq in Hq as ->. cbn [app].
      rewrite feed_plain by (first [reflexivity | discriminate]).
      unfold parse_process_char at 1. rewrite Hp.
      change (Ascii.eqb quotechar quotechar) with true. cbv beta iota.
      rewrite feed_plain by (first [reflexivity | apply Hne]).
      unfold parse_process_char at 1. cbn [state set_state].
      change (Ascii.eqb quotechar quotechar) with true. cbv beta iota.
      rewrite parse_add_char_ok by exact Hlt.
      replace (set_state (add_char (set_state p QUOTE_IN_QUOTED_FIELD) quotechar)
                 IN_QUOTED_FIELD) with (add_char p quotechar)
        by (unfold set_state, add_char; cbn; now rewrite <- Hp).
      apply IH; [exact Hp | cbn [add_char field_len]; lia].
    + cbn [app]. rewrite feed_quoted by (first [assumption | apply Hne]).
      apply IH; [exact Hp | cbn [add_char field_len]; lia].
Qed.

(** The characters of an unquoted field after its first. *)
Lemma feed_in_field (f : str) : forall (p : ReaderObj) (rest : str),
  state p = IN_FIELD -> existsb special f = false -> rest <> [] ->
  field_len p + Z.of_nat (length f) <= field_limit ->
  feed p (f ++ rest) = feed (add_chars p f) rest.
Proof.
  induction f as [|c f IH]; intros p rest Hp Hf Hrest Hlen.
  - now rewrite add_chars_nil.
  - cbn [existsb] in Hf. apply orb_false_iff in Hf as [Hc Hf].
    apply special_false in Hc as (Hd & Hq & Hn).
    cbn [length] in Hlen. cbn [app].
    rewrite feed_plain by (first [assumption | destruct f; [assumption|discriminate]]).
    unfold parse_process_char. rewrite Hp, Hn, Hd.
    rewrite parse_add_char_ok by lia.
    rewrite <- add_chars_cons.
    apply IH; [exact Hp | assumption .. | cbn [add_char field_len]; lia].
Qed.

Lemma start_field_from (p : ReaderObj) (c : ascii) :
  (state p = START_RECORD \/ state p = START_FIELD) -> is_newline c = false ->
  parse_process_char p (Chr c) = start_field (set_state p START_FIELD) (Chr c).
Proof.
  intros [H|H] Hn; unfold parse_process_char; rewrite H.
  - now rewrite Hn.
  - f_equal. destruct p; cbn in *; now subst.
Qed.

Lemma feed_field (p : ReaderObj) (f rest : str) :
  at_field p -> within_limit f -> rest <> [] ->
  exists p', feed p (join_append f ++ rest) = feed p' rest
             /\ fields p' = fields p /\ has_field p' f
             /\ (state p' = START_RECORD -> state p = START_RECORD).
Proof.
  intros (Hst & Hfd & Hlen) Hf Hrest. unfold within_limit in Hf.
  unfold join_append, has_field. destruct (existsb special f) eqn:Hsp.
  - (* quoted *)
    cbn [app]. rewrite <- app_assoc. cbn [app].
    rewrite feed_plain
      by (first [reflexivity | destruct (doubled f); discriminate]).
    rewrite start_field_from by (first [assumption | reflexivity]).
    cbn [start_field]. change (is_newline quotechar) with false.
    change (Ascii.eqb quotechar quotechar) with true. cbv beta iota.
    rewrite feed_doubled by (cbn [set_state state field_len]; first [reflexivity | lia]).
    rewrite feed_plain by (first [reflexivity | assumption]).
    eexists. split; [reflexivity|].
    cbn [set_state add_chars state fields field parse_process_char].
    change (Ascii.eqb quotechar quotechar) with true. cbv beta iota.
    cbn [set_state state fields field].
    rewrite Hfd, app_nil_r, reverse_involutive. repeat split; auto. discriminate.
  - (* unquoted *)
    rewrite (doubled_plain f Hsp).
    destruct f as [|c f].
    + exists p. cbn [app]. rewrite Hfd. repeat split; auto.
      destruct Hst; auto.
    + cbn [existsb] in Hsp. apply orb_false_iff in Hsp as [Hc Hsp].
      apply special_false in Hc as (Hd & Hq & Hn).
      cbn [length] in Hf. cbn [app].
      rewrite feed_plain
        by (first [assumption | destruct f; [assumption|discriminate]]).
      rewrite start_field_from by assumption.
      cbn [start_field]. rewrite Hn, Hq, Hd.
      rewrite parse_add_char_ok by (cbn [set_state field_len]; lia).
      rewrite feed_in_field
        by (cbn [set_state add_char state field_len];
            first [reflexivity | assumption | lia]).
      eexists. split; [reflexivity|].
      cbn [set_state add_chars add_char state fields field].
      rewrite Hfd, reverse_app, reverse_involutive.
      repeat split; auto. discriminate.
Qed.

Lemma feed_delimiter (p : ReaderObj) (f rest : str) :
  has_field p f -> rest <> [] ->
  feed p (delimiter :: rest) = feed (next_field (fields p ++ [f])) rest.
Proof.
  intros [Hf Hst] Hrest. rewrite feed_plain by (first [reflexivity|assumption]).
  unfold parse_process_char.
  destruct Hst as [H|[H|[[H|H] _]]]; rewrite H; cbn [start_field];
    change (is_newline delimiter) with false;
    change (Ascii.eqb delimiter quotechar) with false;
    change (Ascii.eqb delimiter delimiter) with true; cbv beta iota;
    unfold next_field, set_state, parse_save_field;
    cbn [state fields field field_len]; rewrite Hf, ?H; reflexivity.
Qed.

Lemma parse_CR_saves (p : ReaderObj) (f : str) :
  has_field p f -> state p <> START_RECORD ->
  parse_process_char p (Chr CR)
  = Ok {| state := EAT_CRNL; fields := fields p ++ [f]; field := [];
          field_len := 0 |}.
Proof.
  intros [Hf Hst] Hns. unfold parse_process_char.
  destruct Hst as [H|[H|[[H|H] _]]]; [| | |congruence]; rewrite H;
    cbn [start_field];
    change (is_newline CR) with true; change (Ascii.eqb CR quotechar) with false;
    change (Ascii.eqb CR delimiter) with false; cbv beta iota;
    unfold set_state, parse_save_field; cbn [state fields field field_len];
    now rewrite Hf.
Qed.

Lemma feed_lineterminator (p : ReaderObj) (f rest : str) :
  has_field p f -> state p <> START_RECORD ->
  feed p (lineterminator ++ rest) =
  let '(rs, e) := feed parse_reset rest in ((fields p ++ [f]) :: rs, e).
Proof.
  intros Hhas Hns. unfold feed, lineterminator. cbn [app readlines].
  change (Ascii.eqb CR LF) with false. change (Ascii.eqb CR CR) with true.
  change (Ascii.eqb LF LF) with true. cbv beta iota.
  cbn [Reader_iter]. unfold parse_line. cbn [parse_chars].
  rewrite (parse_CR_saves p f Hhas Hns). reflexivity.
Qed.

(** The fields of a row after its first. *)
Lemma feed_join_fields (fs : list str) : forall (acc : list str) (rest : str),
  fs <> [] -> Forall within_limit fs ->
  feed (next_field acc) (row_line fs ++ rest) =
  let '(rs, e) := feed parse_reset rest in ((acc ++ fs) :: rs, e).
Proof.
  induction fs as [|f fs IH]; intros acc rest Hne Hfs; [congruence|].
  apply Forall_cons in Hfs as [Hf Hfs]. unfold row_line in *.
  assert (Hat : at_field (next_field acc)) by (repeat split; auto).
  destruct fs as [|g fs].
  - cbn [join_fields]. rewrite <- app_assoc.
    destruct (feed_field (next_field acc) f (lineterminator ++ rest)
                Hat Hf ltac:(discriminate))
      as (p' & -> & Hfields & Hhas & Hsr).
    rewrite (feed_lineterminator p' f rest Hhas), Hfields; [reflexivity|].
    intros H. specialize (Hsr H). discriminate.
  - change (join_fields (f :: g :: fs))
      with (join_append f ++ delimiter :: join_fields (g :: fs)).
    rewrite <- !app_assoc. cbn [app].
    destruct (feed_field (next_field acc) f
                (delimiter :: join_fields (g :: fs) ++ lineterminator ++ rest)
                Hat Hf ltac:(discriminate))
      as (p' & -> & Hfields & Hhas & _).
    assert (Hr : join_fields (g :: fs) ++ lineterminator ++ rest <> []).
    { destruct (join_fields (g :: fs)); discriminate. }
    rewrite (feed_delimiter p' f _ Hhas Hr), Hfields.
    rewrite app_assoc. rewrite IH by (first [discriminate | assumption]).
    now rewrite <- app_assoc.
Qed.

(** A row of two or more fields, read from the start of a record. *)
Lemma feed_row_line (f : str) (fs : list str) (rest : str) :
  fs <> [] -> Forall within_limit (f :: fs) ->
  feed parse_reset (row_line (f :: fs) ++ rest) =
  let '(rs, e) := feed parse_reset rest in ((f :: fs) :: rs, e).
Proof.
  intros Hne [Hf Hfs]%Forall_cons. destruct fs as [|g fs]; [congruence|].
  unfold row_line.
  change (join_fields (f :: g :: fs))
    with (join_append f ++ delimiter :: join_fields (g :: fs)).
  rewrite <- !app_assoc. cbn [app].
  assert (Hat : at_field parse_reset) by (repeat split; auto).
  assert (Hr : join_fields (g :: fs) ++ lineterminator ++ rest <> []).
  { destruct (join_fields (g :: fs)); discriminate. }
  destruct (feed_field parse_reset f
              (delimiter :: join_fields (g :: fs) ++ lineterminator ++ rest)
              Hat Hf ltac:(discriminate))
    as (p' & -> & Hfields & Hhas & _).
  rewrite (feed_delimiter p' f _ Hhas Hr), Hfields. cbn [parse_reset fields app].
  rewrite app_assoc.
  exact (feed_join_fields (g :: fs) [f] rest Hne Hfs).
Qed.

(** The whole text of a file written row by row. *)
Lemma csv_reader_row_lines (rs : list (list str)) :
  Forall (fun r => (2 <= length r)%nat /\ Forall within_limit r) rs ->
  csv_reader (readlines (concat (map row_line rs))) = (rs, None).
Proof.
  change (csv_reader (readlines ?s)) with (feed parse_reset s).
  induction 1 as [|r rs [Hlen Hr] _ IH]; [reflexivity|].
  cbn [map concat]. destruct r as [|f [|g fs]]; cbn [length] in Hlen; try lia.
  rewrite feed_row_line by (first [discriminate | assumption]).
  now rewrite IH.
Qed.

(** ** The writers *)

Lemma cell_text_of_text (v : option str) : cell_text (of_text v) = Ok (text v).
Proof. now destruct v. Qed.

Lemma dict_to_list_rowdict (s : StudySession) :
  dict_to_list fieldnames (rowdict s)
  = Ok [of_text (subject s); of_text (date s); CInt (duration s);
        of_text (notes s)].
Proof. reflexivity. Qed.

Lemma DictWriter_writerow_eq (s : StudySession) :
  DictWriter_writerow fieldnames (rowdict s)
  = (t <-? py_str_int (duration s); Ok (record_line s)).
Proof.
  unfold DictWriter_writerow. rewrite dict_to_list_rowdict.
  unfold csv_writerow. cbn [cell_texts]. rewrite !cell_text_of_text.
  cbn [cell_text]. unfold py_str_int.
  destruct (int_max_str_digits <? decimal_digits (duration s))%nat;
    [reflexivity|].
  unfold record_line, session_texts. now destruct (text (subject s)).
Qed.

Lemma DictWriter_writerow_ok (s : StudySession) :
  duration_ok s -> DictWriter_writerow fieldnames (rowdict s) = Ok (record_line s).
Proof.
  intros H. now rewrite DictWriter_writerow_eq, (py_str_int_ok _ H).
Qed.

Lemma DictWriter_writerow_inv (s : StudySession) (line : str) :
  DictWriter_writerow fieldnames (rowdict s) = Ok line ->
  line = record_line s /\ duration_ok s.
Proof.
  rewrite DictWriter_writerow_eq.
  destruct (py_str_int (duration s)) as [t|e] eqn:E; [|discriminate].
  apply py_str_int_inv in E as [_ E]. now intros [= <-].
Qed.

Lemma DictWriter_writerow_raises (s : StudySession) (e : exn) :
  DictWriter_writerow fieldnames (rowdict s) = Raise e -> ~ duration_ok s.
Proof. intros H Hd. now rewrite (DictWriter_writerow_ok s Hd) in H. Qed.

Lemma DictWriter_writeheader_eq :
  DictWriter_writeheader fieldnames = Ok header_line.
Proof. reflexivity. Qed.

(** [save_session], whatever the state: the session joins the list; the
    file gains the header when it did not exist, then the record unless
    its text could not be made. *)
Lemma save_session_eq (s : StudySession) (st : Store) :
  save_session s st =
  let base := match file st with Some c => c | None => header_line end in
  match DictWriter_writerow fieldnames (rowdict s) with
  | Ok line => (Ok tt, {| session_list := session_list st ++ [s];
                          file := Some (base ++ line) |})
  | Raise e => (Raise e, {| session_list := session_list st ++ [s];
                            file := Some base |})
  end.
Proof.
  destruct st as [l [c|]]; unfold save_session, _append_to_csv, writerow,
    writeheader, bind, get_list, set_list, os_path_exists, open_a, lift,
    file_write, ret, file_content; cbn [session_list file negb];
    rewrite ?DictWriter_writeheader_eq; cbn [app];
    now destruct (DictWriter_writerow fieldnames (rowdict s)).
Qed.

Lemma writerows_ok (l : list StudySession) : forall (l0 : list StudySession) (c : str),
  Forall duration_ok l ->
  writerows l {| session_list := l0; file := Some c |}
  = (Ok tt, {| session_list := l0;
               file := Some (c ++ concat (map record_line l)) |}).
Proof.
  induction l as [|s l IH]; intros l0 c Hl.
  - cbn. now rewrite app_nil_r.
  - apply Forall_cons in Hl as [Hs Hl]. cbn [writerows].
    unfold writerow, bind, lift, file_write, file_content.
    rewrite (DictWriter_writerow_ok s Hs). cbv beta iota.
    cbn [session_list file].
    etransitivity; [apply IH, Hl|]. cbn [map concat]. now rewrite <- app_assoc.
Qed.

Lemma _write_all_to_csv_ok (l : list StudySession) (f : option str) :
  Forall duration_ok l ->
  _write_all_to_csv {| session_list := l; file := f |}
  = (Ok tt, {| session_list := l; file := Some (render l) |}).
Proof.
  intros Hl. unfold _write_all_to_csv, writeheader, bind, open_w, lift,
    file_write, get_list, file_content.
  rewrite DictWriter_writeheader_eq. cbv beta iota.
  cbn [session_list file app].
  exact (writerows_ok l l header_line Hl).
Qed.

(** ** Loading *)

Lemma load_sessions_eq (st : Store) :
  load_sessions st =
  match file st with
  | None => (Ok [], {| session_list := []; file := None |})
  | Some c =>
      let reader := DictReader (csv_reader (readlines c)) in
      match for_rows (fst reader) (snd reader)
              {| session_list := []; file := Some c |} with
      | (Ok _, st') => (Ok (session_list st'), st')
      | (Raise e, st') => (Raise e, st')
      end
  end.
Proof.
  destruct st as [l [c|]]; unfold load_sessions, bind, set_list,
    os_path_exists, get_list, ret, file_content; cbn [session_list file];
    [|reflexivity].
  now destruct (for_rows _ _ _) as [[[]|e] st'].
Qed.

(** The loop keeps the file, appends the sessions of the rows it converts,
    and stops at the first row it cannot convert. *)
Lemma for_rows_app (rs : list (dict (option str))) :
  forall (ss acc : list StudySession) (f : option str) (e : option exn),
  Forall2 (fun r s => session_of_row r = Ok s) rs ss ->
  forall rs',
  for_rows (rs ++ rs') e {| session_list := acc; file := f |}
  = for_rows rs' e {| session_list := acc ++ ss; file := f |}.
Proof.
  induction rs as [|r rs IH]; intros ss acc f e Hrs rs'.
  - apply Forall2_nil_inv_l in Hrs as ->. now rewrite app_nil_r.
  - apply Forall2_cons_inv_l in Hrs as (s & ss' & Hs & Hss & ->).
    cbn [app for_rows]. unfold bind at 1, lift. rewrite Hs.
    unfold bind at 1, get_list. cbn [session_list].
    unfold bind at 1, set_list. cbn [session_list file].
    rewrite (IH ss' (acc ++ [s]) f e Hss rs'). now rewrite <- app_assoc.
Qed.

Lemma for_rows_raise (r : dict (option str)) (rs : list (dict (option str)))
    (e : option exn) (x : exn) (st : Store) :
  session_of_row r = Raise x -> for_rows (r :: rs) e st = (Raise x, st).
Proof. intros H. cbn [for_rows]. unfold bind, lift. now rewrite H. Qed.

Lemma for_rows_file (rs : list (dict (option str))) :
  forall (e : option exn) (st : Store),
  file (snd (for_rows rs e st)) = file st.
Proof.
  induction rs as [|r rs IH]; intros e st.
  - now destruct e.
  - cbn [for_rows]. unfold bind at 1, lift.
    destruct (session_of_row r) as [s|x]; [|reflexivity].
    unfold bind at 1, get_list. unfold bind at 1, set_list.
    now rewrite IH.
Qed.

Lemma zip_row_texts (a b c d : str) :
  zip_row fieldnames [a; b; c; d] []
  = [(lit "Subject", Some a); (lit "Date", Some b); (lit "Duration", Some c);
     (lit "Notes", Some d)].
Proof. reflexivity. Qed.

Lemma session_of_row_texts (s : StudySession) :
  storable s -> session_of_row (zip_row fieldnames (session_texts s) []) = Ok s.
Proof.
  intros [(Ha & Hb & Hn) Hd]. destruct s as [[a|] [b|] z [n|]];
    cbn [text_ok subject date notes] in *; try contradiction.
  unfold session_texts. cbn [text subject date duration notes].
  rewrite zip_row_texts. unfold session_of_row.
  change (getitem _ (lit "Subject")) with (@Ok (option str) (Some a)).
  change (getitem _ (lit "Date")) with (@Ok (option str) (Some b)).
  change (getitem _ (lit "Duration")) with (@Ok (option str) (Some (decimal z))).
  change (getitem _ (lit "Notes")) with (@Ok (option str) (Some n)).
  cbv beta iota. cbn [int_of]. now rewrite (py_int_decimal z Hd).
Qed.

Lemma within_limit_decimal (z : Z) :
  (decimal_digits z <= int_max_str_digits)%nat -> within_limit (decimal z).
Proof.
  intros H. unfold within_limit. pose proof (length_decimal z).
  unfold int_max_str_digits, field_limit in *. lia.
Qed.

Lemma session_texts_ok (s : StudySession) :
  storable s ->
  (2 <= length (session_texts s))%nat /\ Forall within_limit (session_texts s).
Proof.
  intros [(Ha & Hb & Hn) Hd]. split; [cbn; lia|].
  destruct s as [[a|] [b|] z [n|]];
    cbn [text_ok subject date notes] in *; try contradiction.
  unfold session_texts. cbn [text subject date duration notes].
  repeat constructor; auto. now apply within_limit_decimal.
Qed.

Lemma fieldnames_ok :
  (2 <= length fieldnames)%nat /\ Forall within_limit fieldnames.
Proof.
  split; [cbn; lia|]. repeat constructor; unfold within_limit, field_limit;
    cbn; lia.
Qed.

Lemma csv_reader_render (l : list StudySession) :
  Forall storable l ->
  csv_reader (readlines (render l)) = (fieldnames :: map session_texts l, None).
Proof.
  intros Hl.
  assert (E : render l
              = concat (map row_line (fieldnames :: map session_texts l))).
  { unfold render, header_line. cbn [map concat]. now rewrite List.map_map. }
  rewrite E. apply csv_reader_row_lines. constructor; [apply fieldnames_ok|].
  apply Forall_map. eapply Forall_impl; [exact Hl|].
  intros s Hs. now apply session_texts_ok.
Qed.

Lemma load_render (l l0 : list StudySession) :
  Forall storable l ->
  load_sessions {| session_list := l0; file := Some (render l) |}
  = (Ok l, {| session_list := l; file := Some (render l) |}).
Proof.
  intros Hl. rewrite load_sessions_eq. cbn [file].
  rewrite (csv_reader_render l Hl). unfold DictReader. cbn [fst snd].
  assert (Hf : List.filter (fun r => negb (is_empty_row r)) (map session_texts l)
               = map session_texts l).
  { clear. induction l as [|s l IH]; [reflexivity|]. cbn. now rewrite IH. }
  cbv zeta. rewrite Hf.
  pose proof (for_rows_app (map (fun r => zip_row fieldnames r [])
                              (map session_texts l)) l [] (Some (render l))
                None) as H.
  specialize (H ltac:(clear - Hl; induction Hl; constructor;
                      [now apply session_of_row_texts | assumption]) []).
  rewrite app_nil_r in H. rewrite H. reflexivity.
Qed.

Lemma load_sessions_file (st : Store) :
  file (snd (load_sessions st)) = file st.
Proof.
  rewrite load_sessions_eq. destruct (file st) as [c|] eqn:E; [|reflexivity].
  cbv zeta.
  pose proof (for_rows_file (fst (DictReader (csv_reader (readlines c))))
                (snd (DictReader (csv_reader (readlines c))))
                {| session_list := []; file := Some c |}) as H.
  destruct (for_rows _ _ _) as [[[]|e] st']; exact H.
Qed.

Lemma load_sessions_returns_list (st : Store) (l : list StudySession) :
  fst (load_sessions st) = Ok l -> session_list (snd (load_sessions st)) = l.
Proof.
  rewrite load_sessions_eq. destruct (file st) as [c|].
  - cbv zeta. destruct (for_rows _ _ _) as [[[]|e] st']; cbn; congruence.
  - cbn. congruence.
Qed.

(** What [load_sessions] returns depends on the file only. *)
Lemma load_sessions_list_irrelevant (l1 l2 : list StudySession) (f : option str) :
  load_sessions {| session_list := l1; file := f |}
  = load_sessions {| session_list := l2; file := f |}.
Proof. now rewrite !load_sessions_eq. Qed.

Lemma canonical_in_sync (st : Store) : canonical st -> in_sync st.
Proof.
  destruct st as [l [c|]]; intros [Hl Hf]; cbn [session_list file] in *;
    unfold in_sync; subst.
  - now rewrite load_render.
  - reflexivity.
Qed.

Lemma render_snoc (l : list StudySession) (s : StudySession) :
  render (l ++ [s]) = render l ++ record_line s.
Proof.
  unfold render. rewrite map_app, concat_app. cbn [map concat].
  now rewrite app_nil_r, app_assoc.
Qed.

Lemma render_single (s : StudySession) :
  render [s] = header_line ++ record_line s.
Proof. unfold render. cbn [map concat]. now rewrite app_nil_r. Qed.

(** ** Writing keeps the list *)

Lemma writerows_list (l : list StudySession) : forall st : Store,
  session_list (snd (writerows l st)) = session_list st.
Proof.
  induction l as [|s l IH]; intros st; [reflexivity|].
  cbn [writerows]. unfold writerow, bind, lift, file_write.
  destruct (DictWriter_writerow fieldnames (rowdict s)); [|reflexivity].
  now rewrite IH.
Qed.

Lemma update_session_list (index : Z) (s : StudySession) (st : Store) :
  0 <= index < Z.of_nat (length (session_list st)) ->
  session_list (snd (update_session index s st))
  = <[Z.to_nat index := s]> (session_list st).
Proof.
  intros [H0 H1]. unfold update_session, bind at 1, get_list.
  apply Z.leb_le in H0. apply Z.ltb_lt in H1. rewrite H0, H1. cbn [andb].
  unfold bind at 1, set_list. unfold _write_all_to_csv, writeheader, bind,
    open_w, lift, file_write, get_list.
  rewrite DictWriter_writeheader_eq. cbv beta iota. cbn [session_list].
  now rewrite writerows_list.
Qed.

Lemma update_session_out_of_range (index : Z) (s : StudySession) (st : Store) :
  ~ (0 <= index < Z.of_nat (length (session_list st))) ->
  update_session index s st = (Ok tt, st).
Proof.
  intros H. unfold update_session, bind, get_list, ret.
  destruct (0 <=? index) eqn:E0; [|reflexivity].
  destruct (index <? Z.of_nat (length (session_list st))) eqn:E1; [|reflexivity].
  apply Z.leb_le in E0. apply Z.ltb_lt in E1. lia.
Qed.

Lemma update_session_ok (index : Z) (s : StudySession) (st : Store) :
  0 <= index < Z.of_nat (length (session_list st)) ->
  Forall duration_ok (<[Z.to_nat index := s]> (session_list st)) ->
  update_session index s st
  = (Ok tt, {| session_list := <[Z.to_nat index := s]> (session_list st);
               file := Some (render (<[Z.to_nat index := s]> (session_list st))) |}).
Proof.
  intros [H0 H1] Hl. unfold update_session, bind at 1, get_list.
  apply Z.leb_le in H0. apply Z.ltb_lt in H1. rewrite H0, H1. cbn [andb].
  unfold bind at 1, set_list. cbn [session_list file].
  now apply _write_all_to_csv_ok.
Qed.

(** ** A run of appends *)

Lemma save_all_inv (ss : list StudySession) : forall st st' : Store,
  save_all ss st = (Ok tt, st') ->
  Forall duration_ok ss
  /\ session_list st' = session_list st ++ ss
  /\ file st' = match ss with
                | [] => file st
                | _ => Some (match file st with
                             | Some c => c
                             | None => header_line
                             end ++ concat (map record_line ss))
                end.
Proof.
  induction ss as [|s ss IH]; intros st st'.
  - cbn. intros [= <-]. now rewrite app_nil_r.
  - cbn [save_all]. unfold bind. rewrite save_session_eq. cbv zeta.
    destruct (DictWriter_writerow fieldnames (rowdict s)) as [line|e] eqn:E;
      [|discriminate].
    apply DictWriter_writerow_inv in E as [-> Hs].
    intros H. apply IH in H as (Hss & Hl & Hf). cbn [session_list file] in *.
    split; [now constructor|]. split; [now rewrite Hl, <- app_assoc|].
    rewrite Hf. cbn [map concat]. destruct ss; cbn [map concat].
    + now rewrite app_nil_r.
    + now rewrite <- app_assoc.
Qed.

Lemma save_all_ok (ss : list StudySession) : forall st : Store,
  Forall duration_ok ss -> exists st', save_all ss st = (Ok tt, st').
Proof.
  induction ss as [|s ss IH]; intros st Hss; [now eexists|].
  apply Forall_cons in Hss as [Hs Hss]. cbn [save_all]. unfold bind.
  rewrite save_session_eq, (DictWriter_writerow_ok s Hs). cbv zeta.
  apply IH, Hss.
Qed.

(** * The claims *)

Ltac solve_storable :=
  repeat match goal with
         | |- Forall _ _ => constructor
         | |- storable _ => split
         | |- texts_ok _ => repeat split
         | |- text_ok _ => unfold text_ok, within_limit, field_limit; cbn; lia
         | |- duration_ok _ => unfold duration_ok, int_max_str_digits; cbn; lia
         end.

(** C1, amended.  Starting from no backing file and an empty in-memory
    sequence, after appending in order any sequence of sessions whose
    subject, date and notes are strings of at most 131072 characters, a
    subsequent load (whatever the in-memory sequence then holds) returns
    exactly those sessions, in the same order, all four fields equal. *)
Theorem round_trip (ss l0 : list StudySession) (st : Store) :
  Forall texts_ok ss ->
  save_all ss fresh = (Ok tt, st) ->
  load_sessions {| session_list := l0; file := file st |}
  = (Ok ss, {| session_list := ss; file := file st |}).
Proof.
  intros Ht Hsave. apply save_all_inv in Hsave as (Hd & _ & Hf).
  assert (Hs : Forall storable ss).
  { clear Hf. induction Ht as [|s ss Hs _ IH]; constructor.
    - split; [exact Hs | now apply Forall_cons in Hd as [? _]].
    - apply IH. now apply Forall_cons in Hd as [_ ?]. }
  cbn [fresh file] in Hf. rewrite Hf. destruct ss as [|s ss].
  - now rewrite load_sessions_eq.
  - exact (load_render (s :: ss) l0 Hs).
Qed.

Lemma round_trip_witness :
  Forall texts_ok [math; art]
  /\ save_all [math; art] fresh = (Ok tt, snd (save_all [math; art] fresh))
  /\ load_sessions {| session_list := [];
                      file := file (snd (save_all [math; art] fresh)) |}
     = (Ok [math; art],
        {| session_list := [math; art];
           file := file (snd (save_all [math; art] fresh)) |}).
Proof.
  assert (Ht : Forall texts_ok [math; art]) by solve_storable.
  assert (Hs : save_all [math; art] fresh
               = (Ok tt, snd (save_all [math; art] fresh)))
    by (vm_compute; reflexivity).
  exact (conj Ht (conj Hs (round_trip [math; art] [] _ Ht Hs))).
Defined.

(** C1 as stated fails: a session whose notes hold 131073 characters is
    appended without error, and the load that follows raises the reader's
    field-limit error instead of returning the session. *)
Lemma round_trip_fails_on_long_notes :
  fst (save_all [long_session] fresh) = Ok tt
  /\ fst (load_sessions (snd (save_all [long_session] fresh)))
     = Raise csv_Error.
Proof. split; vm_compute; reflexivity. Qed.

(** C2, amended.  After every successful load, parsing the file yields
    exactly the in-memory sequence.  An append or a replace with a storable
    session, applied to a store in canonical sync (no file and no session,
    or a file that is exactly the header followed by the records of the
    in-memory sessions, all of them storable), succeeds and leaves the store
    in canonical sync, where parsing the file yields exactly the in-memory
    sequence. *)
Theorem store_sync :
  (forall (st st' : Store) (l : list StudySession),
      load_sessions st = (Ok l, st') -> in_sync st')
  /\ (forall (st : Store) (s : StudySession),
         canonical st -> storable s ->
         exists st', save_session s st = (Ok tt, st')
                     /\ canonical st' /\ in_sync st')
  /\ (forall (st : Store) (index : Z) (s : StudySession),
         canonical st -> storable s ->
         exists st', update_session index s st = (Ok tt, st')
                     /\ canonical st' /\ in_sync st').
Proof.
  split; [|split].
  - intros st st' l H. unfold in_sync.
    pose proof (load_sessions_file st) as Hf.
    pose proof (load_sessions_returns_list st l) as Hl.
    rewrite H in Hf, Hl. cbn [fst snd] in Hf, Hl.
    destruct st as [l0 f], st' as [l' f']. cbn [file session_list] in *.
    subst f'. rewrite (load_sessions_list_irrelevant l' l0 f), H.
    cbn [fst]. now rewrite Hl.
  - intros st s [Hl Hf] Hs. rewrite save_session_eq.
    rewrite (DictWriter_writerow_ok s (proj2 Hs)). cbv zeta.
    eexists. split; [reflexivity|].
    assert (Hc : canonical
                   {| session_list := session_list st ++ [s];
                      file := Some (match file st with
                                    | Some c => c
                                    | None => header_line
                                    end ++ record_line s) |}).
    { split; cbn [session_list file].
      - apply Forall_app. split; [exact Hl | now constructor].
      - destruct (file st) as [c|].
        + now rewrite render_snoc, Hf.
        + rewrite Hf. cbn [app]. now rewrite render_single. }
    split; [exact Hc | now apply canonical_in_sync].
  - intros st index s [Hl Hf] Hs.
    destruct (decide (0 <= index < Z.of_nat (length (session_list st))))
      as [Hi|Hi].
    + assert (Hl' : Forall storable (<[Z.to_nat index := s]> (session_list st))).
      { apply Forall_insert; assumption. }
      rewrite update_session_ok;
        [|exact Hi | eapply Forall_impl; [exact Hl'|]; now intros ? [_ ?]].
      eexists. split; [reflexivity|].
      assert (Hc : canonical
                     {| session_list := <[Z.to_nat index := s]> (session_list st);
                        file := Some (render (<[Z.to_nat index := s]>
                                                (session_list st))) |})
        by (split; [exact Hl' | reflexivity]).
      split; [exact Hc | now apply canonical_in_sync].
    + rewrite update_session_out_of_range by exact Hi.
      exists st. split; [reflexivity|].
      split; [now split | now apply canonical_in_sync].
Qed.

Lemma store_sync_witness :
  in_sync (snd (load_sessions empty_file))
  /\ (canonical fresh /\ storable math
      /\ exists st', save_session math fresh = (Ok tt, st')
                     /\ canonical st' /\ in_sync st')
  /\ (canonical {| session_list := [math]; file := Some (render [math]) |}
      /\ storable math_revised
      /\ exists st',
          update_session 0 math_revised
            {| session_list := [math]; file := Some (render [math]) |}
          = (Ok tt, st') /\ canonical st' /\ in_sync st').
Proof.
  assert (H0 : canonical fresh) by (split; [constructor | reflexivity]).
  assert (H1 : storable math) by solve_storable.
  assert (H2 : canonical {| session_list := [math];
                            file := Some (render [math]) |})
    by (split; [solve_storable | reflexivity]).
  assert (H3 : storable math_revised) by solve_storable.
  split; [|split].
  - exact (proj1 store_sync empty_file (snd (load_sessions empty_file)) []
             eq_refl).
  - exact (conj H0 (conj H1 (proj1 (proj2 store_sync) fresh math H0 H1))).
  - exact (conj H2 (conj H3 (proj2 (proj2 store_sync) _ 0 math_revised H2 H3))).
Defined.

(** C2 as stated fails, in two ways.  A store whose file exists and is
    empty is in sync with an empty sequence; an append to it succeeds,
    writes the record without a header, and the file then parses to no
    session at all while the in-memory sequence holds one.  And from the
    fresh store, the append of a session whose notes hold 131073 characters
    succeeds, after which the file cannot be parsed. *)
Lemma append_leaves_store_out_of_sync :
  (in_sync empty_file
   /\ fst (save_session math empty_file) = Ok tt
   /\ fst (load_sessions (snd (save_session math empty_file))) = Ok []
   /\ session_list (snd (save_session math empty_file)) = [math]
   /\ ~ in_sync (snd (save_session math empty_file)))
  /\ (in_sync fresh
      /\ fst (save_session long_session fresh) = Ok tt
      /\ fst (load_sessions (snd (save_session long_session fresh)))
         = Raise csv_Error
      /\ ~ in_sync (snd (save_session long_session fresh))).
Proof.
  assert (E1 : fst (load_sessions (snd (save_session math empty_file)))
               = Ok []) by (vm_compute; reflexivity).
  assert (E2 : fst (load_sessions (snd (save_session long_session fresh)))
               = Raise csv_Error) by (vm_compute; reflexivity).
  split.
  - split; [vm_compute; reflexivity|]. split; [vm_compute; reflexivity|].
    split; [exact E1|]. split; [vm_compute; reflexivity|].
    unfold in_sync. rewrite E1. vm_compute. discriminate.
  - split; [vm_compute; reflexivity|]. split; [vm_compute; reflexivity|].
    split; [exact E2|]. unfold in_sync. rewrite E2. discriminate.
Qed.

(** C3.  For every index outside [0 <= index < len(session_list)],
    [update_session] returns without an exception and leaves the in-memory
    sequence and the file exactly as they were. *)
Theorem replace_out_of_range_noop (index : Z) (s : StudySession) (st : Store) :
  ~ (0 <= index < Z.of_nat (length (session_list st))) ->
  update_session index s st = (Ok tt, st).
Proof. apply update_session_out_of_range. Qed.

Lemma replace_out_of_range_noop_witness :
  let st := {| session_list := [math; art]; file := Some (render [math; art]) |} in
  (~ (0 <= -1 < Z.of_nat (length (session_list st)))
   /\ update_session (-1) math_revised st = (Ok tt, st))
  /\ (~ (0 <= 2 < Z.of_nat (length (session_list st)))
      /\ update_session 2 math_revised st = (Ok tt, st)).
Proof.
  intros st.
  assert (H1 : ~ (0 <= -1 < Z.of_nat (length (session_list st)))) by (cbn; lia).
  assert (H2 : ~ (0 <= 2 < Z.of_nat (length (session_list st)))) by (cbn; lia).
  exact (conj (conj H1 (replace_out_of_range_noop (-1) math_revised st H1))
              (conj H2 (replace_out_of_range_noop 2 math_revised st H2))).
Defined.

(** C4.  For every index with [0 <= index < len(session_list)] and every
    session, after [update_session] the element at that index is the
    session, the length is unchanged, and every other position holds what
    it held before. *)
Theorem replace_frames (index : Z) (s : StudySession) (st : Store) :
  0 <= index < Z.of_nat (length (session_list st)) ->
  let l' := session_list (snd (update_session index s st)) in
  l' !! Z.to_nat index = Some s
  /\ length l' = length (session_list st)
  /\ forall j : nat, j <> Z.to_nat index -> l' !! j = session_list st !! j.
Proof.
  intros Hi l'. subst l'. rewrite (update_session_list index s st Hi).
  split; [|split].
  - apply list_lookup_insert_eq. lia.
  - apply length_insert.
  - intros j Hj. now apply list_lookup_insert_ne.
Qed.

Lemma replace_frames_witness :
  let st := {| session_list := [math; art]; file := Some (render [math; art]) |} in
  0 <= 0 < Z.of_nat (length (session_list st))
  /\ session_list (snd (update_session 0 math_revised st)) !! Z.to_nat 0
     = Some math_revised
  /\ length (session_list (snd (update_session 0 math_revised st)))
     = length (session_list st)
  /\ forall j : nat, j <> Z.to_nat 0 ->
       session_list (snd (update_session 0 math_revised st)) !! j
       = session_list st !! j.
Proof.
  intros st.
  assert (H : 0 <= 0 < Z.of_nat (length (session_list st))) by (cbn; lia).
  exact (conj H (replace_frames 0 math_revised st H)).
Defined.

(** C5.  After [save_session] the in-memory sequence is one longer, its
    last element is the session, and every earlier position holds what it
    held before. *)
Theorem append_grows (s : StudySession) (st : Store) :
  let l' := session_list (snd (save_session s st)) in
  l' = session_list st ++ [s]
  /\ length l' = S (length (session_list st))
  /\ last l' = Some s
  /\ forall i : nat, (i < length (session_list st))%nat ->
       l' !! i = session_list st !! i.
Proof.
  intros l'.
  assert (E : l' = session_list st ++ [s]).
  { subst l'. rewrite save_session_eq. cbv zeta.
    now destruct (DictWriter_writerow fieldnames (rowdict s)). }
  rewrite E. split; [reflexivity|]. split; [|split].
  - rewrite length_app. cbn. lia.
  - apply last_snoc.
  - intros i Hi. now apply lookup_app_l.
Qed.

(** ** Filtering *)

Lemma str_eqb_eq (a b : str) : str_eqb a b = true <-> a = b.
Proof.
  revert b. induction a as [|x a IH]; intros [|y b]; cbn [str_eqb];
    try (split; congruence).
  rewrite andb_true_iff, Ascii.eqb_eq, IH. split; [intros [-> ->]|intros [= -> ->]]; auto.
Qed.

Lemma date_is_true (d : str) (s : StudySession) :
  date_is d s = true <-> date s = Some d.
Proof.
  unfold date_is. destruct (date s) as [d'|]; [|split; congruence].
  rewrite str_eqb_eq. split; congruence.
Qed.

Lemma filter_date_subsequence (d : str) (l : list StudySession) :
  date_subsequence d l (List.filter (date_is d) l).
Proof.
  induction l as [|s l IH]; [constructor|]. cbn [List.filter].
  destruct (date_is d s) eqn:E.
  - apply ds_keep; [now apply date_is_true | exact IH].
  - apply ds_skip; [|exact IH]. intros H%date_is_true. congruence.
Qed.

Lemma date_subsequence_none (d : str) (l r : list StudySession) :
  date_subsequence d l r -> Forall (fun s => date s <> Some d) l -> r = [].
Proof.
  induction 1 as [|s l r Hs _ _|s l r _ _ IH]; intros Hl; [reflexivity| |].
  - apply Forall_cons in Hl as [Hn _]. contradiction.
  - apply Forall_cons in Hl as [_ Hl]. auto.
Qed.

(** C6.  For every date string and every store state,
    [filter_sessions_by_date] returns the subsequence of the in-memory
    sequence made of exactly the sessions whose date equals the string, in
    their order; it returns the empty list when no session matches; it
    raises nothing and changes neither the sequence nor the file. *)
Theorem filter_correct (d : str) (st : Store) :
  exists r,
    filter_sessions_by_date d st = (Ok r, st)
    /\ date_subsequence d (session_list st) r
    /\ (Forall (fun s => date s <> Some d) (session_list st) -> r = []).
Proof.
  exists (List.filter (date_is d) (session_list st)).
  split; [reflexivity|]. split; [apply filter_date_subsequence|].
  apply date_subsequence_none, filter_date_subsequence.
Qed.

Lemma filter_correct_witness :
  let st := {| session_list := [math; art]; file := Some (render [math; art]) |} in
  Forall (fun s => date s <> Some (lit "2024-02-01")) (session_list st)
  /\ fst (filter_sessions_by_date (lit "2024-02-01") st) = Ok [].
Proof.
  intros st.
  assert (H : Forall (fun s => date s <> Some (lit "2024-02-01"))
                (session_list st)) by (repeat constructor; discriminate).
  split; [exact H|].
  destruct (filter_correct (lit "2024-02-01") st) as (r & E & _ & Hr).
  rewrite E. cbn [fst]. f_equal. exact (Hr H).
Defined.

(** C7.  When the backing file does not exist, [load_sessions] raises
    nothing, returns an empty sequence and leaves the in-memory sequence
    empty; no file appears. *)
Theorem load_missing_file (l : list StudySession) :
  load_sessions {| session_list := l; file := None |}
  = (Ok [], {| session_list := []; file := None |}).
Proof. reflexivity. Qed.

(** ** Rows under the standard header *)






(** ** The shape of a record *)

Lemma special_uint_chars (u : uint) : existsb special (uint_chars u) = false.
Proof. induction u; cbn [uint_chars existsb]; rewrite ?IHu; reflexivity. Qed.

Lemma join_append_decimal (z : Z) : join_append (decimal z) = decimal z.
Proof.
  assert (H : existsb special (decimal z) = false).
  { unfold decimal. destruct (Z.to_int z); cbn [existsb];
      rewrite special_uint_chars; reflexivity. }
  unfold join_append. rewrite H. now apply doubled_plain.
Qed.

(** C9, amended.  In every file the store itself creates, by an append
    made while no file is present or by a rewrite, the first line is
    exactly the header [Subject,Date,Duration,Notes], and an append to a
    file that starts with the header leaves the header as its first line; a
    record is the subject, the date, the duration in decimal and the notes,
    in that order, separated by commas and ended by CR LF; an append with
    no file present creates the file with the header before the record, and
    a rewrite starts the file with the header, the records following in the
    order of the sequence.  A record whose duration [str] refuses is not
    written: the exception ends the append after the header, and the
    rewrite is covered for sequences whose durations [str] accepts. *)
Theorem backing_file_format (s : StudySession) (l : list StudySession)
    (f : option str) :
  let header := lit "Subject,Date,Duration,Notes" ++ [CR; LF] in
  let record (s : StudySession) :=
    join_append (text (subject s)) ++ [","%char]
    ++ join_append (text (date s)) ++ [","%char]
    ++ decimal (duration s) ++ [","%char]
    ++ join_append (text (notes s)) ++ [CR; LF] in
  DictWriter_writeheader fieldnames = Ok header
  /\ DictWriter_writerow fieldnames (rowdict s)
     = (t <-? py_str_int (duration s); Ok (record s))
  /\ save_session s {| session_list := l; file := None |}
     = match py_str_int (duration s) with
       | Ok _ => (Ok tt, {| session_list := l ++ [s];
                            file := Some (header ++ record s) |})
       | Raise x => (Raise x, {| session_list := l ++ [s];
                                 file := Some header |})
       end
  /\ (Forall duration_ok l ->
      _write_all_to_csv {| session_list := l; file := f |}
      = (Ok tt, {| session_list := l;
                   file := Some (header ++ concat (map record l)) |}))
  /\ (forall rest : str,
         save_session s {| session_list := l; file := Some (header ++ rest) |}
         = match py_str_int (duration s) with
           | Ok _ => (Ok tt, {| session_list := l ++ [s];
                                file := Some (header ++ rest ++ record s) |})
           | Raise x => (Raise x, {| session_list := l ++ [s];
                                     file := Some (header ++ rest) |})
           end)
  /\ (forall rest : str, head (readlines (header ++ rest)) = Some header).
Proof.
  intros header record.
  assert (Hrec : forall s', record_line s' = record s').
  { intros s'. unfold record_line, row_line, session_texts, record.
    cbn [join_fields]. rewrite join_append_decimal.
    unfold delimiter, lineterminator.
    repeat (cbn [app]; rewrite <- ?app_assoc). reflexivity. }
  split; [reflexivity|]. split; [|split; [|split; [|split]]].
  - now rewrite DictWriter_writerow_eq, Hrec.
  - rewrite save_session_eq, DictWriter_writerow_eq, Hrec. cbv zeta.
    cbn [file session_list]. now destruct (py_str_int (duration s)).
  - intros Hl. rewrite (_write_all_to_csv_ok l f Hl). unfold render.
    rewrite (map_ext record_line record Hrec). reflexivity.
  - intros rest. rewrite save_session_eq, DictWriter_writerow_eq, Hrec.
    cbv zeta. cbn [file session_list].
    destruct (py_str_int (duration s)); [|reflexivity].
    now rewrite <- app_assoc.
  - intros rest. reflexivity.
Qed.

Lemma backing_file_format_witness :
  Forall duration_ok [math; art]
  /\ file (snd (_write_all_to_csv {| session_list := [math; art]; file := None |}))
     = Some (lit "Subject,Date,Duration,Notes" ++ [CR; LF]
             ++ lit "Math,2024-01-10,30," ++ [CR; LF]
             ++ lit "Art,2024-01-10,45,sketch" ++ [CR; LF]).
Proof.
  assert (H : Forall duration_ok [math; art]) by solve_storable.
  split; [exact H|].
  rewrite (proj1 (proj2 (proj2 (proj2
             (backing_file_format math [math; art] None)))) H).
  reflexivity.
Defined.

(** C9 as stated fails: the first line of the backing file is not always
    the header.  An append to a file that exists and is empty succeeds and
    writes the record alone, so the first line of the file is the record
    of the session. *)
Lemma first_line_is_a_record_after_append_to_empty_file :
  save_session math empty_file
  = (Ok tt, {| session_list := [math];
               file := Some (lit "Math,2024-01-10,30," ++ [CR; LF]) |})
  /\ head (readlines (file_content (snd (save_session math empty_file))))
     = Some (lit "Math,2024-01-10,30," ++ [CR; LF])
  /\ head (readlines (file_content (snd (save_session math empty_file))))
     <> Some (lit "Subject,Date,Duration,Notes" ++ [CR; LF]).
Proof.
  split; [vm_compute; reflexivity|].
  split; [vm_compute; reflexivity|]. vm_compute. discriminate.
Qed.


(** * Further properties of the store *)

(** X1.  [load_sessions] forgets the sequence in memory: loading a second
    time gives the same result, exception included, and the same state as
    loading once. *)
Theorem load_twice (st : Store) :
  load_sessions (snd (load_sessions st)) = load_sessions st.
Proof.
  pose proof (load_sessions_file st) as Hf.
  destruct (load_sessions st) as [r [l' f']] eqn:E. cbn [snd file] in *.
  subst f'. destruct st as [l f]. cbn [file].
  now rewrite (load_sessions_list_irrelevant l' l f).
Qed.

(** X2.  [load_sessions] is not atomic: it stops at the first record it
    cannot convert, raises that record's exception, and leaves in memory
    the sessions of the records before it, whatever the sequence held
    before the call. *)
Theorem load_stops_at_first_bad_record (l ss : list StudySession)
    (content : str) (rs1 rs2 : list (dict (option str)))
    (r : dict (option str)) (e : option exn) (x : exn) :
  DictReader (csv_reader (readlines content)) = (rs1 ++ r :: rs2, e) ->
  Forall2 (fun r' s => session_of_row r' = Ok s) rs1 ss ->
  session_of_row r = Raise x ->
  load_sessions {| session_list := l; file := Some content |}
  = (Raise x, {| session_list := ss; file := Some content |}).
Proof.
  intros Hread Hrs1 Hr. rewrite load_sessions_eq. cbn [file]. cbv zeta.
  rewrite Hread. cbn [fst snd].
  rewrite (for_rows_app rs1 ss [] (Some content) e Hrs1 (r :: rs2)).
  cbn [app]. now rewrite (for_rows_raise r rs2 e x _ Hr).
Qed.

Lemma load_stops_at_first_bad_record_witness :
  let content := header_line ++ record_line math
                 ++ lit "Chem,2024-01-11,an hour," ++ lineterminator
                 ++ record_line art in
  let row (a b c d : str) :=
    [(lit "Subject", Some a); (lit "Date", Some b);
     (lit "Duration", Some c); (lit "Notes", Some d)] in
  let rs1 := [row (lit "Math") (lit "2024-01-10") (lit "30") []] in
  let r := row (lit "Chem") (lit "2024-01-11") (lit "an hour") [] in
  let rs2 := [row (lit "Art") (lit "2024-01-10") (lit "45") (lit "sketch")] in
  DictReader (csv_reader (readlines content)) = (rs1 ++ r :: rs2, None)
  /\ Forall2 (fun r' s => session_of_row r' = Ok s) rs1 [math]
  /\ session_of_row r = Raise ValueError
  /\ load_sessions {| session_list := [art; art]; file := Some content |}
     = (Raise ValueError, {| session_list := [math]; file := Some content |}).
Proof.
  intros content row rs1 r rs2.
  assert (H1 : DictReader (csv_reader (readlines content))
               = (rs1 ++ r :: rs2, None)) by (vm_compute; reflexivity).
  assert (H2 : Forall2 (fun r' s => session_of_row r' = Ok s) rs1 [math])
    by (repeat constructor).
  assert (H3 : session_of_row r = Raise ValueError) by (vm_compute; reflexivity).
  exact (conj H1 (conj H2 (conj H3
           (load_stops_at_first_bad_record [art; art] [math] content rs1 rs2 r
              None ValueError H1 H2 H3)))).
Defined.

(** X3.  A replace at a valid index rewrites the file from memory alone:
    whatever the file held before (nothing, damaged text, other sessions),
    when every session in memory after the replacement is storable the call
    succeeds and a load then returns exactly the in-memory sequence. *)
Theorem replace_rewrites_from_memory (index : Z) (s : StudySession)
    (l : list StudySession) (f : option str) :
  0 <= index < Z.of_nat (length l) ->
  Forall storable (<[Z.to_nat index := s]> l) ->
  exists st',
    update_session index s {| session_list := l; file := f |} = (Ok tt, st')
    /\ session_list st' = <[Z.to_nat index := s]> l
    /\ load_sessions st' = (Ok (session_list st'), st').
Proof.
  intros Hi Hl. eexists. split.
  - apply (update_session_ok index s {| session_list := l; file := f |} Hi).
    cbn [session_list]. eapply Forall_impl; [exact Hl|]. now intros ? [_ ?].
  - cbn [session_list]. split; [reflexivity|]. now apply load_render.
Qed.

Lemma replace_rewrites_from_memory_witness :
  let damaged := Some (lit "not a session file") in
  0 <= 1 < Z.of_nat (length [math; art])
  /\ Forall storable (<[Z.to_nat 1 := math_revised]> [math; art])
  /\ exists st',
      update_session 1 math_revised
        {| session_list := [math; art]; file := damaged |} = (Ok tt, st')
      /\ session_list st' = <[Z.to_nat 1 := math_revised]> [math; art]
      /\ load_sessions st' = (Ok (session_list st'), st').
Proof.
  intros damaged.
  assert (H1 : 0 <= 1 < Z.of_nat (length [math; art])) by (cbn; lia).
  assert (H2 : Forall storable (<[Z.to_nat 1 := math_revised]> [math; art]))
    by (cbn; solve_storable).
  exact (conj H1 (conj H2
           (replace_rewrites_from_memory 1 math_revised [math; art] damaged
              H1 H2))).
Defined.

(** ** A rewrite that raises *)

Lemma DictWriter_writerow_raises_ValueError (s : StudySession) :
  ~ duration_ok s ->
  DictWriter_writerow fieldnames (rowdict s) = Raise ValueError.
Proof.
  intros H. rewrite DictWriter_writerow_eq. unfold py_str_int.
  destruct (int_max_str_digits <? decimal_digits (duration s))%nat eqn:E;
    [reflexivity|].
  apply Nat.ltb_ge in E. contradiction.
Qed.

Lemma writerows_stops (l1 l2 : list StudySession) (s : StudySession) :
  forall (l0 : list StudySession) (c : str),
  Forall duration_ok l1 -> ~ duration_ok s ->
  writerows (l1 ++ s :: l2) {| session_list := l0; file := Some c |}
  = (Raise ValueError,
     {| session_list := l0; file := Some (c ++ concat (map record_line l1)) |}).
Proof.
  induction l1 as [|a l1 IH]; intros l0 c Hl1 Hs.
  - cbn [app writerows]. unfold writerow, bind, lift.
    rewrite (DictWriter_writerow_raises_ValueError s Hs).
    cbn [map concat]. now rewrite app_nil_r.
  - apply Forall_cons in Hl1 as [Ha Hl1]. cbn [app writerows].
    unfold writerow, bind, lift, file_write, file_content.
    rewrite (DictWriter_writerow_ok a Ha). cbv beta iota.
    cbn [session_list file].
    etransitivity; [apply IH; assumption|].
    cbn [map concat]. now rewrite <- app_assoc.
Qed.

(** X4.  A rewrite stops at the first session whose duration [str]
    refuses: the replace raises ValueError with the replacement already
    made in memory, and the file is left holding the header and only the
    records that precede that session; the records after it are gone from
    the file. *)
Theorem replace_truncates_file_on_error (index : Z) (s bad : StudySession)
    (l l1 l2 : list StudySession) (f : option str) :
  0 <= index < Z.of_nat (length l) ->
  <[Z.to_nat index := s]> l = l1 ++ bad :: l2 ->
  Forall duration_ok l1 -> ~ duration_ok bad ->
  update_session index s {| session_list := l; file := f |}
  = (Raise ValueError,
     {| session_list := <[Z.to_nat index := s]> l; file := Some (render l1) |}).
Proof.
  intros [H0 H1] Hsplit Hl1 Hbad. unfold update_session, bind at 1, get_list.
  apply Z.leb_le in H0. apply Z.ltb_lt in H1. cbn [session_list].
  rewrite H0, H1. cbn [andb].
  unfold bind at 1, set_list. cbn [session_list file].
  unfold _write_all_to_csv, writeheader, bind, open_w, lift, file_write,
    get_list, file_content.
  rewrite DictWriter_writeheader_eq. cbv beta iota.
  cbn [session_list file app]. rewrite Hsplit.
  exact (writerows_stops l1 l2 bad (l1 ++ bad :: l2) header_line Hl1 Hbad).
Qed.

Lemma nb_digits_iter_D1 (n : nat) (d : uint) :
  nb_digits (Nat.iter n D1 d) = (n + nb_digits d)%nat.
Proof.
  induction n as [|n IH]; [reflexivity|].
  change (S (nb_digits (Nat.iter n D1 d)) = S (n + nb_digits d)).
  now rewrite IH.
Qed.

Lemma huge_session_refused : ~ duration_ok huge_session.
Proof.
  unfold duration_ok, decimal_digits, huge_session. cbn [duration].
  change (Z.of_uint (Nat.iter 4301 D1 Nil))
    with (Z.of_int (Pos (D1 (Nat.iter 4300 D1 Nil)))).
  rewrite DecimalZ.to_of. cbn [norm unorm nzhead nb_digits].
  rewrite nb_digits_iter_D1. unfold int_max_str_digits. cbn [nb_digits]. lia.
Qed.

Lemma replace_truncates_file_on_error_witness :
  let l := [math; huge_session; art] in
  0 <= 0 < Z.of_nat (length l)
  /\ <[Z.to_nat 0 := math_revised]> l = [math_revised] ++ huge_session :: [art]
  /\ Forall duration_ok [math_revised] /\ ~ duration_ok huge_session
  /\ update_session 0 math_revised
       {| session_list := l; file := Some (render [math; art]) |}
     = (Raise ValueError,
        {| session_list := <[Z.to_nat 0 := math_revised]> l;
           file := Some (render [math_revised]) |}).
Proof.
  intros l.
  assert (H1 : 0 <= 0 < Z.of_nat (length l)) by (cbn; lia).
  assert (H2 : <[Z.to_nat 0 := math_revised]> l
               = [math_revised] ++ huge_session :: [art]) by reflexivity.
  assert (H3 : Forall duration_ok [math_revised]) by solve_storable.
  assert (H4 : ~ duration_ok huge_session) by exact huge_session_refused.
  exact (conj H1 (conj H2 (conj H3 (conj H4
           (replace_truncates_file_on_error 0 math_revised huge_session l
              [math_revised] [art] (Some (render [math; art])) H1 H2 H3 H4))))).
Defined.

(** ** [None] attributes in the file *)






(** X6.  The file determines the sessions: two sequences of storable
    sessions that a rewrite turns into the same file are the same
    sequence. *)
Theorem rewrite_is_injective (l1 l2 : list StudySession) (f1 f2 : option str) :
  Forall storable l1 -> Forall storable l2 ->
  file (snd (_write_all_to_csv {| session_list := l1; file := f1 |}))
  = file (snd (_write_all_to_csv {| session_list := l2; file := f2 |})) ->
  l1 = l2.
Proof.
  intros H1 H2.
  rewrite !_write_all_to_csv_ok
    by (eapply Forall_impl; [eassumption|]; now intros ? [_ ?]).
  cbn [snd file]. intros E0.
  assert (E : render l1 = render l2) by congruence. clear E0.
  pose proof (load_render l1 [] H1) as L1.
  pose proof (load_render l2 [] H2) as L2.
  rewrite E in L1. congruence.
Qed.

Lemma rewrite_is_injective_witness :
  Forall storable [math; art] /\ Forall storable [math; art]
  /\ file (snd (_write_all_to_csv {| session_list := [math; art]; file := None |}))
     = file (snd (_write_all_to_csv
                    {| session_list := [math; art]; file := Some [] |}))
  /\ [math; art] = [math; art].
Proof.
  assert (H : Forall storable [math; art]) by solve_storable.
  assert (E : file (snd (_write_all_to_csv
                           {| session_list := [math; art]; file := None |}))
              = file (snd (_write_all_to_csv
                             {| session_list := [math; art]; file := Some [] |})))
    by reflexivity.
  exact (conj H (conj H (conj E
           (rewrite_is_injective [math; art] [math; art] None (Some []) H H E)))).
Defined.

(** X7.  An append shows up in the filter of its own date only: after
    [save_session], the sessions found for the new session's date are
    those found before followed by the new session, and the sessions found
    for any other date are those found before. *)
Theorem filter_after_append (d : str) (s : StudySession) (st : Store) :
  let before := List.filter (date_is d) (session_list st) in
  fst (filter_sessions_by_date d st) = Ok before
  /\ (date s = Some d ->
      fst (filter_sessions_by_date d (snd (save_session s st)))
      = Ok (before ++ [s]))
  /\ (date s <> Some d ->
      fst (filter_sessions_by_date d (snd (save_session s st))) = Ok before).
Proof.
  intros before.
  assert (E : session_list (snd (save_session s st)) = session_list st ++ [s]).
  { rewrite save_session_eq. cbv zeta.
    now destruct (DictWriter_writerow fieldnames (rowdict s)). }
  assert (F : fst (filter_sessions_by_date d (snd (save_session s st)))
              = Ok (before ++ List.filter (date_is d) [s])).
  { unfold filter_sessions_by_date, bind, get_list, ret. cbn [fst].
    now rewrite E, List.filter_app. }
  split; [reflexivity|]. split; intros Hd; rewrite F; cbn [List.filter].
  - apply date_is_true in Hd. now rewrite Hd.
  - destruct (date_is d s) eqn:Hs; [apply date_is_true in Hs; contradiction|].
    now rewrite app_nil_r.
Qed.

Lemma filter_after_append_witness :
  let st := {| session_list := [math]; file := Some (render [math]) |} in
  (date art = Some (lit "2024-01-10")
   /\ fst (filter_sessions_by_date (lit "2024-01-10") (snd (save_session art st)))
      = Ok ([math] ++ [art]))
  /\ (date math_revised <> Some (lit "2024-01-10")
      /\ fst (filter_sessions_by_date (lit "2024-01-10")
                (snd (save_session math_revised st)))
         = Ok [math]).
Proof.
  intros st.
  assert (H1 : date art = Some (lit "2024-01-10")) by reflexivity.
  assert (H2 : date math_revised <> Some (lit "2024-01-10")) by discriminate.
  split.
  - exact (conj H1 (proj1 (proj2 (filter_after_append (lit "2024-01-10") art st)) H1)).
  - exact (conj H2 (proj2 (proj2 (filter_after_append (lit "2024-01-10")
                                    math_revised st)) H2)).
Defined.

(** ** Columns are found by name *)

Lemma str_eqb_refl (a : str) : str_eqb a a = true.
Proof. now apply str_eqb_eq. Qed.

Lemma str_eqb_neq (a b : str) : a <> b -> str_eqb a b = false.
Proof.
  intros H. destruct (str_eqb a b) eqn:E; [|reflexivity].
  apply str_eqb_eq in E. contradiction.
Qed.

Lemma dict_get_set {V : Type} (d : dict V) (k k' : str) (v : V) :
  dict_get (dict_set d k v) k'
  = if str_eqb k k' then Some v else dict_get d k'.
Proof.
  induction d as [|[k0 v0] d IH]; [reflexivity|]. cbn [dict_set].
  destruct (str_eqb k0 k) eqn:E0; cbn [dict_get].
  - apply str_eqb_eq in E0 as ->. now destruct (str_eqb k k').
  - rewrite IH. destruct (str_eqb k0 k') eqn:E1; [|reflexivity].
    apply str_eqb_eq in E1 as ->.
    assert (Hk : k <> k')
      by (intros ->; rewrite str_eqb_refl in E0; discriminate).
    now rewrite (str_eqb_neq k k' Hk).
Qed.

Lemma zip_row_nil (names : list str) (d : dict (option str)) :
  zip_row names [] d = fold_left (fun d k => dict_set d k None) names d.
Proof. now destruct names. Qed.

Lemma dict_get_zip_row_other (names : list str) :
  forall (r : list str) (d : dict (option str)) (k : str),
  k ∉ names -> dict_get (zip_row names r d) k = dict_get d k.
Proof.
  induction names as [|n names IH]; intros r d k Hk.
  - now destruct r.
  - apply not_elem_of_cons in Hk as [Hn Hk].
    destruct r as [|v r].
    + rewrite zip_row_nil. cbn [fold_left]. rewrite <- zip_row_nil.
      rewrite IH by exact Hk. rewrite dict_get_set.
      now rewrite str_eqb_neq by congruence.
    + cbn [zip_row]. rewrite IH by exact Hk. rewrite dict_get_set.
      now rewrite str_eqb_neq by congruence.
Qed.

Lemma dict_get_zip_row (names : list str) :
  forall (r : list str) (d : dict (option str)) (k : str) (i : nat),
  NoDup names -> names !! i = Some k ->
  dict_get (zip_row names r d) k = Some (r !! i).
Proof.
  induction names as [|n names IH]; intros r d k i Hnd Hi; [discriminate|].
  apply NoDup_cons in Hnd as [Hn Hnd]. destruct i as [|i].
  - cbn in Hi. injection Hi as ->. destruct r as [|v r].
    + rewrite zip_row_nil. cbn [fold_left]. rewrite <- zip_row_nil.
      rewrite dict_get_zip_row_other by exact Hn.
      now rewrite dict_get_set, str_eqb_refl.
    + cbn [zip_row]. rewrite dict_get_zip_row_other by exact Hn.
      now rewrite dict_get_set, str_eqb_refl.
  - cbn in Hi. destruct r as [|v r].
    + rewrite zip_row_nil. cbn [fold_left]. rewrite <- zip_row_nil.
      now rewrite (IH [] _ k i Hnd Hi).
    + cbn [zip_row]. now rewrite (IH r _ k i Hnd Hi).
Qed.

(** X8.  [load_sessions] takes each attribute from the column whose header
    names it, wherever that column stands and whatever other columns the
    file has: for a header of distinct names, a record becomes the session
    of its cells at the positions of Subject, Date, Duration and Notes,
    with [None] for a position the record does not reach, and it is
    [int] on the Duration cell that decides whether the record
    converts. *)
Theorem columns_are_found_by_name (names r : list str) (pS pD pU pN : nat) :
  NoDup names ->
  names !! pS = Some (lit "Subject") -> names !! pD = Some (lit "Date") ->
  names !! pU = Some (lit "Duration") -> names !! pN = Some (lit "Notes") ->
  session_of_row (zip_row names r [])
  = (n <-? int_of (r !! pU);
     Ok {| subject := r !! pS; date := r !! pD; duration := n;
           notes := r !! pN |}).
Proof.
  intros Hnd HS HD HU HN. unfold session_of_row, getitem.
  rewrite (dict_get_zip_row names r [] _ pS Hnd HS).
  rewrite (dict_get_zip_row names r [] _ pD Hnd HD).
  rewrite (dict_get_zip_row names r [] _ pU Hnd HU).
  rewrite (dict_get_zip_row names r [] _ pN Hnd HN).
  reflexivity.
Qed.

Lemma columns_are_found_by_name_witness :
  let names := [lit "Notes"; lit "Duration"; lit "Room"; lit "Date"; lit "Subject"] in
  let r := [lit "sketch"; lit "45"; lit "B12"; lit "2024-01-10"; lit "Art"] in
  NoDup names
  /\ names !! 4%nat = Some (lit "Subject") /\ names !! 3%nat = Some (lit "Date")
  /\ names !! 1%nat = Some (lit "Duration") /\ names !! 0%nat = Some (lit "Notes")
  /\ session_of_row (zip_row names r []) = Ok art.
Proof.
  intros names r.
  assert (Hnd : NoDup names).
  { repeat (apply NoDup_cons; split;
            [rewrite list_elem_of_In; cbn; intuition discriminate|]).
    apply NoDup_nil_2. }
  assert (HS : names !! 4%nat = Some (lit "Subject")) by reflexivity.
  assert (HD : names !! 3%nat = Some (lit "Date")) by reflexivity.
  assert (HU : names !! 1%nat = Some (lit "Duration")) by reflexivity.
  assert (HN : names !! 0%nat = Some (lit "Notes")) by reflexivity.
  repeat (split; [assumption|]).
  rewrite (columns_are_found_by_name names r 4 3 1 0 Hnd HS HD HU HN).
  reflexivity.
Defined.

(** X9.  A header that does not name Subject, Date or Duration makes
    [load_sessions] raise KeyError at the first record that is not a blank
    line, with nothing loaded: the list in memory is left empty and the
    file untouched. *)
Theorem load_missing_column (l : list StudySession) (content : str)
    (names : list str) (data : list (list str)) (e : option exn)
    (r : list str) :
  csv_reader (readlines content) = (names :: data, e) ->
  lit "Subject" ∉ names \/ lit "Date" ∉ names \/ lit "Duration" ∉ names ->
  r ∈ data -> r <> [] ->
  load_sessions {| session_list := l; file := Some content |}
  = (Raise KeyError, {| session_list := []; file := Some content |}).
Proof.
  intros Hread Hmiss Hr Hne. rewrite load_sessions_eq. cbn [file]. cbv zeta.
  rewrite Hread. unfold DictReader. cbn [fst snd].
  assert (Hkey : forall r', session_of_row (zip_row names r' []) = Raise KeyError).
  { intros r'. unfold session_of_row, getitem.
    destruct Hmiss as [H|[H|H]];
      rewrite (dict_get_zip_row_other names r' [] _ H); cbn [dict_get];
      repeat match goal with
             | |- context [match dict_get ?d ?k with _ => _ end] =>
                 destruct (dict_get d k)
             end; reflexivity. }
  destruct (List.filter (fun r0 => negb (is_empty_row r0)) data)
    as [|r0 kept] eqn:E.
  - exfalso. assert (Hin : In r (List.filter (fun r0 => negb (is_empty_row r0)) data)).
    { apply filter_In. split; [now apply list_elem_of_In|]. now destruct r. }
    rewrite E in Hin. contradiction.
  - cbn [map]. now rewrite (for_rows_raise _ _ e KeyError _ (Hkey r0)).
Qed.

Lemma load_missing_column_witness :
  let content := lineterminator ++ render [math] in
  csv_reader (readlines content) = ([] :: [fieldnames; session_texts math], None)
  /\ (lit "Subject" ∉ [] \/ lit "Date" ∉ [] \/ lit "Duration" ∉ [])
  /\ session_texts math ∈ [fieldnames; session_texts math]
  /\ session_texts math <> []
  /\ load_sessions {| session_list := [art]; file := Some content |}
     = (Raise KeyError, {| session_list := []; file := Some content |}).
Proof.
  intros content.
  assert (H1 : csv_reader (readlines content)
               = ([] :: [fieldnames; session_texts math], None))
    by (vm_compute; reflexivity).
  assert (H2 : lit "Subject" ∉ ([] : list str) \/ lit "Date" ∉ ([] : list str)
               \/ lit "Duration" ∉ ([] : list str))
    by (left; apply not_elem_of_nil).
  assert (H3 : session_texts math ∈ [fieldnames; session_texts math])
    by (apply list_elem_of_further, list_elem_of_here).
  assert (H4 : session_texts math <> []) by discriminate.
  exact (conj H1 (conj H2 (conj H3 (conj H4
           (load_missing_column [art] content [] _ None _ H1 H2 H3 H4))))).
Defined.

(** ** Blank lines *)

Lemma feed_blank_line (rest : str) :
  feed parse_reset (lineterminator ++ rest)
  = let '(rs, e) := feed parse_reset rest in ([] :: rs, e).
Proof. reflexivity. Qed.

Lemma feed_blank_lines (n : nat) (rest : str) :
  feed parse_reset (blank_lines n ++ rest)
  = let '(rs, e) := feed parse_reset rest in (replicate n [] ++ rs, e).
Proof.
  induction n as [|n IH]; cbn [blank_lines replicate app].
  - now destruct (feed parse_reset rest).
  - rewrite <- app_assoc, feed_blank_line, IH.
    now destruct (feed parse_reset rest).
Qed.

Lemma feed_spaced_records (l : list (nat * StudySession)) (m : nat) :
  Forall (fun p => storable (snd p)) l ->
  feed parse_reset (spaced_records l ++ blank_lines m)
  = (flat_map (fun p => replicate (fst p) [] ++ [session_texts (snd p)]) l
     ++ replicate m [], None).
Proof.
  induction 1 as [|[n s] l Hs _ IH]; cbn [spaced_records flat_map app].
  - rewrite <- (app_nil_r (blank_lines m)), feed_blank_lines.
    cbn. now rewrite app_nil_r.
  - rewrite <- !app_assoc, feed_blank_lines. unfold record_line.
    destruct (session_texts_ok s Hs) as [Hlen Hfit].
    destruct (session_texts s) as [|a [|b ts]] eqn:E; cbn [length] in Hlen;
      try lia.
    rewrite feed_row_line by (first [discriminate | assumption]).
    rewrite IH. cbn [fst snd app]. now rewrite ?E.
Qed.

Lemma filter_spaced_rows (l : list (nat * StudySession)) (m : nat) :
  List.filter (fun r => negb (is_empty_row r))
    (flat_map (fun p => replicate (fst p) [] ++ [session_texts (snd p)]) l
     ++ replicate m [])
  = map session_texts (map snd l).
Proof.
  assert (Hb : forall k (t : list (list str)),
             List.filter (fun r => negb (is_empty_row r)) (replicate k [] ++ t)
             = List.filter (fun r => negb (is_empty_row r)) t).
  { induction k as [|k IHk]; intros t; [reflexivity|]. exact (IHk t). }
  induction l as [|[n s] l IH]; cbn [flat_map map app snd fst].
  - rewrite <- (app_nil_r (replicate m [])). now rewrite Hb.
  - rewrite <- !app_assoc, Hb. cbn [app List.filter session_texts is_empty_row negb].
    now rewrite IH.
Qed.

Lemma csv_reader_feed (s : str) : csv_reader (readlines s) = feed parse_reset s.
Proof. reflexivity. Qed.

Lemma header_line_fields :
  header_line
  = row_line (lit "Subject" :: [lit "Date"; lit "Duration"; lit "Notes"]).
Proof. reflexivity. Qed.

Lemma csv_reader_spaced (l : list (nat * StudySession)) (m : nat) :
  Forall (fun p => storable (snd p)) l ->
  csv_reader (readlines (header_line ++ spaced_records l ++ blank_lines m))
  = (fieldnames
     :: (flat_map (fun p => replicate (fst p) [] ++ [session_texts (snd p)]) l
         ++ replicate m []), None).
Proof.
  intros Hl. rewrite csv_reader_feed, header_line_fields.
  rewrite feed_row_line by (first [discriminate | apply fieldnames_ok]).
  now rewrite (feed_spaced_records l m Hl).
Qed.

(** X10.  Blank lines after the header do not count: a file made of the
    header, then the records of storable sessions with any number of blank
    lines before each and after the last, loads as exactly those sessions
    in order. *)
Theorem load_skips_blank_lines (l : list (nat * StudySession)) (m : nat)
    (l0 : list StudySession) :
  Forall (fun p => storable (snd p)) l ->
  load_sessions
    {| session_list := l0;
       file := Some (header_line ++ spaced_records l ++ blank_lines m) |}
  = (Ok (map snd l),
     {| session_list := map snd l;
        file := Some (header_line ++ spaced_records l ++ blank_lines m) |}).
Proof.
  intros Hl. rewrite load_sessions_eq. cbn [file]. cbv zeta.
  rewrite (csv_reader_spaced l m Hl). unfold DictReader. cbn [fst snd].
  rewrite filter_spaced_rows.
  match goal with
  | |- context [{| session_list := []; file := ?f |}] =>
      pose proof (for_rows_app (map (fun r => zip_row fieldnames r [])
                                  (map session_texts (map snd l))) (map snd l)
                    [] f None) as H
  end.
  specialize (H ltac:(clear - Hl; induction Hl as [|[n s] l Hs _ IH];
                      constructor;
                      [now apply session_of_row_texts | assumption]) []).
  rewrite app_nil_r in H. rewrite H. reflexivity.
Qed.

Lemma load_skips_blank_lines_witness :
  let l := [(2%nat, math); (0%nat, art)] in
  Forall (fun p => storable (snd p)) l
  /\ load_sessions
       {| session_list := [];
          file := Some (header_line ++ spaced_records l ++ blank_lines 1) |}
     = (Ok [math; art],
        {| session_list := [math; art];
           file := Some (header_line ++ spaced_records l ++ blank_lines 1) |}).
Proof.
  intros l.
  assert (H : Forall (fun p => storable (snd p)) l).
  { constructor; [cbn [snd]; solve_storable|].
    constructor; [cbn [snd]; solve_storable|]. constructor. }
  exact (conj H (load_skips_blank_lines l 1 [] H)).
Defined.

(** * The window and the store *)

(** ** The sort *)

Lemma str_ltb_irrefl (a : str) : str_ltb a a = false.
Proof.
  induction a as [|x a IH]; [reflexivity|]. cbn [str_ltb].
  now rewrite Nat.ltb_irrefl.
Qed.

Lemma str_ltb_asym (a : str) : forall b : str,
  str_ltb a b = true -> str_ltb b a = false.
Proof.
  induction a as [|x a IH]; intros [|y b]; cbn [str_ltb]; try congruence.
  destruct (nat_of_ascii x <? nat_of_ascii y)%nat eqn:E1.
  - intros _. apply Nat.ltb_lt in E1.
    assert (E2 : (nat_of_ascii y <? nat_of_ascii x)%nat = false)
      by (apply Nat.ltb_ge; lia).
    now rewrite E2.
  - destruct (nat_of_ascii y <? nat_of_ascii x)%nat; [congruence|]. apply IH.
Qed.

Lemma insert_by_date_ok (x : StudySession) (dx : str) (l : list StudySession) :
  date x = Some dx -> Forall (fun s => exists d, date s = Some d) l ->
  exists l',
    insert_by_date x l = Ok l'
    /\ Permutation (x :: l) l'
    /\ (forall d, List.filter (date_is d) l' = List.filter (date_is d) (x :: l))
    /\ (date_sorted l -> date_sorted l')
    /\ (forall y t, l' = y :: t ->
        y = x \/ exists t', l = y :: t').
Proof.
  intros Hx. induction 1 as [|y l [dy Hy] Hl IH].
  - exists [x]. repeat split; auto; [constructor | intros y t [= <- <-]; auto].
  - destruct IH as (r & Hr & Hperm & Hfil & Hsort & Hhead).
    cbn [insert_by_date]. rewrite Hy, Hx. cbn [key_lt].
    destruct (str_ltb dy dx) eqn:E.
    + rewrite Hr. exists (y :: r). split; [reflexivity|].
      split; [rewrite perm_swap; now constructor|].
      split; [|split].
      * intros d. cbn [List.filter]. rewrite Hfil. cbn [List.filter].
        destruct (date_is d y) eqn:Ey, (date_is d x) eqn:Ex; try reflexivity.
        apply date_is_true in Ey, Ex. rewrite Hy in Ey. rewrite Hx in Ex.
        assert (dy = dx) by congruence. subst dy.
        rewrite str_ltb_irrefl in E. discriminate.
      * intros Hs. destruct r as [|z t]; [constructor|].
        constructor.
        -- destruct (Hhead z t eq_refl) as [->|[t' ->]].
           ++ rewrite Hx, Hy. cbn [key_lt]. now rewrite (str_ltb_asym _ _ E).
           ++ now inversion Hs.
        -- apply Hsort. inversion Hs; subst; [constructor | assumption].
      * intros z t [= <- <-]. right. now exists l.
    + exists (x :: y :: l). split; [reflexivity|]. split; [reflexivity|].
      split; [reflexivity|]. split.
      * intros Hs. constructor; [|exact Hs]. rewrite Hy, Hx. cbn [key_lt].
        now rewrite E.
      * intros z t [= <- <-]. now left.
Qed.

Lemma sort_by_date_ok (l : list StudySession) :
  Forall (fun s => exists d, date s = Some d) l ->
  exists l',
    sort_by_date l = Ok l'
    /\ Permutation l l'
    /\ (forall d, List.filter (date_is d) l' = List.filter (date_is d) l)
    /\ date_sorted l'.
Proof.
  induction 1 as [|x l [dx Hx] Hl IH].
  - exists []. repeat split; constructor.
  - destruct IH as (r & Hr & Hperm & Hfil & Hsort).
    assert (Hr' : Forall (fun s => exists d, date s = Some d) r).
    { eapply Permutation_Forall; [exact Hperm | exact Hl]. }
    destruct (insert_by_date_ok x dx r Hx Hr')
      as (l' & Hl' & Hperm' & Hfil' & Hsort' & _).
    exists l'. cbn [sort_by_date]. rewrite Hr. split; [exact Hl'|].
    split; [now rewrite <- Hperm', <- Hperm|]. split; [|auto].
    intros d. rewrite Hfil'. cbn [List.filter]. now rewrite Hfil.
Qed.

Lemma storable_has_date (s : StudySession) :
  storable s -> exists d, date s = Some d.
Proof.
  intros [(_ & Hd & _) _]. destruct (date s) as [d|]; [now exists d|].
  contradiction.
Qed.

Lemma duration_texts_ok (l : list StudySession) :
  Forall duration_ok l -> exists ts, duration_texts l = Ok ts.
Proof.
  induction 1 as [|s l Hs _ [ts IH]]; [now eexists|].
  cbn [duration_texts]. rewrite (py_str_int_ok _ Hs), IH. now eexists.
Qed.

(** What the display does to a store whose file is the rendering of
    storable sessions. *)
Lemma show_all_sessions_render
    (leftover : list StudySession -> list StudySession)
    (lf l0 : list StudySession) :
  Forall storable lf ->
  exists l',
    show_all_sessions leftover
      {| session_list := l0; file := Some (render lf) |}
    = (Ok tt, {| session_list := l'; file := Some (render lf) |})
    /\ sort_by_date lf = Ok l'
    /\ Permutation lf l'
    /\ (forall d, List.filter (date_is d) l' = List.filter (date_is d) lf)
    /\ date_sorted l'.
Proof.
  intros Hlf.
  destruct (sort_by_date_ok lf) as (l' & Hsort & Hperm & Hfil & Hs).
  { eapply Forall_impl; [exact Hlf|]. apply storable_has_date. }
  destruct (duration_texts_ok l') as [ts Hts].
  { eapply Permutation_Forall; [exact Hperm|].
    eapply Forall_impl; [exact Hlf|]. now intros ? [_ ?]. }
  exists l'. split; [|auto].
  unfold show_all_sessions, bind. rewrite (load_render lf l0 Hlf).
  unfold _populate_table. cbn [session_list file]. now rewrite Hsort, Hts.
Qed.

(** X11.  The display reorders the store: after [show_all_sessions] on a
    file that holds the records of storable sessions, the list in memory
    is those sessions sorted by date, sessions of the same date keeping
    the order they have in the file, so that [filter_sessions_by_date]
    finds the same sessions as before the sort; the file is not touched.
    The in-memory order is then the date order, not the file order. *)
Theorem display_sorts_the_list
    (leftover : list StudySession -> list StudySession)
    (lf l0 : list StudySession) :
  Forall storable lf ->
  exists l',
    show_all_sessions leftover
      {| session_list := l0; file := Some (render lf) |}
    = (Ok tt, {| session_list := l'; file := Some (render lf) |})
    /\ Permutation lf l'
    /\ date_sorted l'
    /\ (forall d, fst (filter_sessions_by_date d
                         {| session_list := l'; file := Some (render lf) |})
                  = fst (filter_sessions_by_date d
                           {| session_list := lf; file := Some (render lf) |})).
Proof.
  intros Hlf.
  destruct (show_all_sessions_render leftover lf l0 Hlf)
    as (l' & Hrun & _ & Hperm & Hfil & Hs).
  exists l'. repeat split; auto.
  intros d. unfold filter_sessions_by_date, bind, get_list, ret. cbn [fst].
  cbn [session_list]. now rewrite Hfil.
Qed.

Lemma display_sorts_the_list_witness :
  Forall storable [later; math; earlier; art]
  /\ show_all_sessions (fun l => l)
       {| session_list := []; file := Some (render [later; math; earlier; art]) |}
     = (Ok tt, {| session_list := [earlier; math; art; later];
                  file := Some (render [later; math; earlier; art]) |}).
Proof.
  assert (H : Forall storable [later; math; earlier; art]) by solve_storable.
  split; [exact H|].
  destruct (display_sorts_the_list (fun l => l) [later; math; earlier; art] [] H)
    as (l' & Hrun & _).
  rewrite Hrun. f_equal. f_equal.
  assert (E : session_list
                (snd (show_all_sessions (fun l => l)
                        {| session_list := [];
                           file := Some (render [later; math; earlier; art]) |}))
              = [earlier; math; art; later]) by (vm_compute; reflexivity).
  rewrite Hrun in E. exact E.
Defined.

(** ** The form *)

(** X12.  The form refuses an empty subject and a zero duration before it
    reaches the store: [add_or_update_session] then returns normally and
    leaves the list, the file and the selected row as they were. *)
Theorem form_rejects_invalid_input
    (leftover : list StudySession -> list StudySession)
    (subject_text date_text notes_text : str) (duration_value : Z)
    (app : StudyApp) :
  subject_text = [] \/ duration_value = 0 ->
  add_or_update_session leftover subject_text date_text duration_value
    notes_text app
  = (Ok tt, app).
Proof.
  intros [-> | ->]; unfold add_or_update_session; [reflexivity|].
  now rewrite orb_true_r.
Qed.

Lemma form_rejects_invalid_input_witness :
  let app := {| store := {| session_list := [math]; file := Some (render [math]) |};
                selected_row := Some 0 |} in
  (([] : str) = [] \/ 30 = 0)
  /\ add_or_update_session (fun l => l) [] (lit "2024-01-10") 30 [] app
     = (Ok tt, app)
  /\ (lit "Art" = [] \/ 0 = 0)
  /\ add_or_update_session (fun l => l) (lit "Art") (lit "2024-01-10") 0 [] app
     = (Ok tt, app).
Proof.
  intros app.
  assert (H1 : ([] : str) = [] \/ 30 = 0) by (left; reflexivity).
  assert (H2 : lit "Art" = [] \/ 0 = 0) by (right; reflexivity).
  exact (conj H1 (conj (form_rejects_invalid_input _ _ _ _ _ app H1)
           (conj H2 (form_rejects_invalid_input _ _ _ _ _ app H2)))).
Defined.

(** X13.  An update made through the form replaces the session at the
    selected row of the list in memory, rewrites the file in the order of
    that list, whatever the file held, then reloads and sorts again: the
    file ends as the rendering of the in-memory list with that one session
    replaced, the list as its date-sorted copy, and no row is selected. *)
Theorem form_update_rewrites_in_memory_order
    (leftover : list StudySession -> list StudySession)
    (subject_text date_text notes_text : str) (duration_value : Z)
    (l : list StudySession) (f : option str) (row : Z) :
  let s := {| subject := Some subject_text; date := Some date_text;
              duration := duration_value; notes := Some notes_text |} in
  subject_text <> [] -> duration_value <> 0 ->
  0 <= row < Z.of_nat (length l) ->
  Forall storable (<[Z.to_nat row := s]> l) ->
  exists l',
    add_or_update_session leftover subject_text date_text duration_value
      notes_text
      {| store := {| session_list := l; file := f |};
         selected_row := Some row |}
    = (Ok tt,
       {| store := {| session_list := l';
                      file := Some (render (<[Z.to_nat row := s]> l)) |};
          selected_row := None |})
    /\ sort_by_date (<[Z.to_nat row := s]> l) = Ok l'
    /\ Permutation (<[Z.to_nat row := s]> l) l'
    /\ date_sorted l'.
Proof.
  intros s Hsub Hdur Hrow Hl.
  destruct (show_all_sessions_render leftover (<[Z.to_nat row := s]> l)
              (<[Z.to_nat row := s]> l) Hl)
    as (l' & Hrun & Hsort & Hperm & _ & Hs).
  exists l'. split; [|auto]. unfold add_or_update_session.
  assert (E1 : match subject_text with [] => true | _ => false end = false)
    by (destruct subject_text; congruence).
  assert (E2 : (duration_value =? 0) = false) by (apply Z.eqb_neq; exact Hdur).
  rewrite E1, E2. cbn [orb selected_row store]. fold s.
  rewrite (update_session_ok row s {| session_list := l; file := f |} Hrow)
    by (cbn [session_list]; eapply Forall_impl; [exact Hl|]; now intros ? [_ ?]).
  cbn [session_list]. now rewrite Hrun.
Qed.

Lemma form_update_rewrites_in_memory_order_witness :
  let l := [earlier; math; art; later] in
  let f := Some (render [later; math; earlier; art]) in
  lit "Math" <> [] /\ 60 <> 0
  /\ 0 <= 1 < Z.of_nat (length l)
  /\ Forall storable (<[Z.to_nat 1 := math_revised]> l)
  /\ add_or_update_session (fun l => l) (lit "Math") (lit "2024-01-11") 60
       (lit "revised")
       {| store := {| session_list := l; file := f |}; selected_row := Some 1 |}
     = (Ok tt,
        {| store := {| session_list := [earlier; art; math_revised; later];
                       file := Some (render [earlier; math_revised; art; later]) |};
           selected_row := None |}).
Proof.
  intros l f.
  assert (H1 : lit "Math" <> []) by discriminate.
  assert (H2 : 60 <> 0) by lia.
  assert (H3 : 0 <= 1 < Z.of_nat (length l)) by (cbn; lia).
  assert (H4 : Forall storable (<[Z.to_nat 1 := math_revised]> l))
    by (cbn; solve_storable).
  repeat (split; [assumption|]).
  destruct (form_update_rewrites_in_memory_order (fun l => l) (lit "Math")
              (lit "2024-01-11") (lit "revised") 60 l f 1 H1 H2 H3 H4)
    as (l' & Hrun & Hsort & _).
  rewrite Hrun. do 2 f_equal.
  assert (E : sort_by_date (<[Z.to_nat 1 := math_revised]> l)
              = Ok [earlier; art; math_revised; later])
    by (vm_compute; reflexivity).
  fold math_revised in Hsort. rewrite E in Hsort.
  injection Hsort as <-. reflexivity.
Defined.


